(** * rassumfrassum: routing and merging logic of the LSP multiplexer

    A shallow embedding of [rassumfrassum/frassum.py] (classes [Server],
    [DataCookie], [LspLogic]) and of the helpers [is_scalar] and [dmerge]
    of [rassumfrassum/util.py], followed by the properties of the routing
    and aggregation policy.

    Conventions of the embedding:
    - a decoded JSON document is a [pyval]; JSON objects are association
      lists in insertion order, as Python dicts iterate; numbers are the
      integers the protocol uses (document versions, sync kinds), JSON
      fractions are outside the model;
    - a Python exception is the [Raise] outcome of the [result] monad;
    - [Server] objects live in a store indexed by address, so that object
      identity and the dataclass equality on fields are kept apart;
    - a method that mutates an argument in place returns the argument's
      final value next to its Python return value. *)

From Stdlib Require Import ZArith String Ascii List Bool Lia.
From Stdlib Require Import DecimalString DecimalNat.
From stdpp Require Import base option gmap strings.
Import ListNotations.
Local Open Scope string_scope.

(** ** Exceptions *)

(** The exceptions the modelled code can raise.  [ReprUnmodelled] is not a
    Python exception: it marks the one place where the embedding stops, the
    rendering of a list or dict inside an f-string. *)
Inductive exn := AttributeError | TypeError | KeyError | ReprUnmodelled.

Inductive result (A : Type) :=
| Ok (a : A)
| Raise (e : exn).
Arguments Ok {A} a.
Arguments Raise {A} e.

#[global] Instance result_ret : MRet result := fun A => @Ok A.
#[global] Instance result_bind : MBind result := fun A B f m =>
  match m with
  | Ok a => f a
  | Raise e => Raise e
  end.

(** ** Python values *)

Unset Elimination Schemes.
Inductive pyval :=
| PNone
| PBool (b : bool)
| PInt (z : Z)
| PStr (s : string)
| PList (l : list pyval)
| PDict (d : list (string * pyval)).
Set Elimination Schemes.

Abbreviation pydict := (list (string * pyval)).

(** *** Dicts with string keys, in insertion order *)

Fixpoint dict_get {V} (k : string) (d : list (string * V)) : option V :=
  match d with
  | [] => None
  | (k', v) :: d' => if String.eqb k k' then Some v else dict_get k d'
  end.

(** [d[k] = v]: an existing key keeps its position, a new one goes last. *)
Fixpoint dict_set {V} (k : string) (v : V) (d : list (string * V)) : list (string * V) :=
  match d with
  | [] => [(k, v)]
  | (k', v') :: d' =>
      if String.eqb k k' then (k, v) :: d' else (k', v') :: dict_set k v d'
  end.

Definition dict_has {V} (k : string) (d : list (string * V)) : bool :=
  match dict_get k d with Some _ => true | None => false end.

(** A Python dict holds a key once. *)
Fixpoint keys_unique {V} (d : list (string * V)) : bool :=
  match d with
  | [] => true
  | (k, _) :: d' => negb (dict_has k d') && keys_unique d'
  end.

Fixpoint wf_pyval (v : pyval) : bool :=
  match v with
  | PList l => forallb wf_pyval l
  | PDict d => keys_unique d && forallb (fun kv => wf_pyval (snd kv)) d
  | _ => true
  end.

(** *** Builtin operations *)

(** [bool(v)] *)
Definition truthy (v : pyval) : bool :=
  match v with
  | PNone => false
  | PBool b => b
  | PInt z => negb (z =? 0)%Z
  | PStr s => negb (String.eqb s "")
  | PList l => match l with [] => false | _ => true end
  | PDict d => match d with [] => false | _ => true end
  end.

(** [bool] is a subclass of [int]: [True == 1] and [False == 0]. *)
Definition as_int (v : pyval) : option Z :=
  match v with
  | PBool b => Some (Z.b2z b)
  | PInt z => Some z
  | _ => None
  end.

(** [a == b] *)
Fixpoint py_eq (a b : pyval) {struct a} : bool :=
  match a, b with
  | PNone, PNone => true
  | PBool x, PBool y => Bool.eqb x y
  | PBool x, PInt y => (Z.b2z x =? y)%Z
  | PInt x, PBool y => (x =? Z.b2z y)%Z
  | PInt x, PInt y => (x =? y)%Z
  | PStr x, PStr y => String.eqb x y
  | PList xs, PList ys =>
      (fix all2 (xs ys : list pyval) {struct xs} : bool :=
         match xs, ys with
         | [], [] => true
         | x :: xs', y :: ys' => py_eq x y && all2 xs' ys'
         | _, _ => false
         end) xs ys
  | PDict d1, PDict d2 =>
      (length d1 =? length d2)%nat &&
      (fix incl (d : pydict) {struct d} : bool :=
         match d with
         | [] => true
         | (k, v) :: d' =>
             match dict_get k d2 with
             | Some v' => py_eq v v'
             | None => false
             end && incl d'
         end) d1
  | _, _ => false
  end.

(** Order of strings by code point, which is the order of their UTF-8
    bytes. *)
Fixpoint str_lt (s t : string) : bool :=
  match s, t with
  | _, EmptyString => false
  | EmptyString, String _ _ => true
  | String a s', String b t' =>
      if (nat_of_ascii a <? nat_of_ascii b)%nat then true
      else if (nat_of_ascii b <? nat_of_ascii a)%nat then false
      else str_lt s' t'
  end.

(** [a < b]; a [TypeError] between values that Python does not order. *)
Fixpoint py_lt (a b : pyval) {struct a} : result bool :=
  match a, b with
  | PStr x, PStr y => Ok (str_lt x y)
  | PList xs, PList ys =>
      (fix lex (xs ys : list pyval) {struct xs} : result bool :=
         match xs, ys with
         | [], [] => Ok false
         | [], _ :: _ => Ok true
         | _ :: _, [] => Ok false
         | x :: xs', y :: ys' => if py_eq x y then lex xs' ys' else py_lt x y
         end) xs ys
  | _, _ =>
      match as_int a, as_int b with
      | Some x, Some y => Ok (x <? y)%Z
      | _, _ => Raise TypeError
      end
  end.

(** [a or b] *)
Definition py_or (a b : pyval) : pyval := if truthy a then a else b.

(** [a + b] *)
Definition py_add (a b : pyval) : result pyval :=
  match a, b with
  | PStr x, PStr y => Ok (PStr (x ++ y))
  | PList x, PList y => Ok (PList (x ++ y))
  | _, _ =>
      match as_int a, as_int b with
      | Some x, Some y => Ok (PInt (x + y))
      | _, _ => Raise TypeError
      end
  end.

(** [v.get(k, dflt)]: only a dict has the method. *)
Definition py_get (k : string) (dflt : pyval) (v : pyval) : result pyval :=
  match v with
  | PDict d => Ok (default dflt (dict_get k d))
  | _ => Raise AttributeError
  end.

(** [v[k]] for a string [k] *)
Definition py_getitem (k : string) (v : pyval) : result pyval :=
  match v with
  | PDict d => match dict_get k d with Some x => Ok x | None => Raise KeyError end
  | _ => Raise TypeError
  end.

(** [v[k] = x] for a string [k]; the result is the mutated [v]. *)
Definition py_setitem (k : string) (x : pyval) (v : pyval) : result pyval :=
  match v with
  | PDict d => Ok (PDict (dict_set k x d))
  | _ => Raise TypeError
  end.

Definition is_substring (k s : string) : bool :=
  match String.index 0 k s with Some _ => true | None => false end.

(** [k in v] for a string [k]: a key of a dict, an element of a list, a
    substring of a string. *)
Definition py_in (k : string) (v : pyval) : result bool :=
  match v with
  | PDict d => Ok (dict_has k d)
  | PList l => Ok (existsb (py_eq (PStr k)) l)
  | PStr s => Ok (is_substring k s)
  | _ => Raise TypeError
  end.

(** [v.items()] *)
Definition py_items (v : pyval) : result pydict :=
  match v with
  | PDict d => Ok d
  | _ => Raise AttributeError
  end.

(** [v.copy()], a shallow copy: the same value. *)
Definition py_copy (v : pyval) : result pyval :=
  match v with
  | PDict _ | PList _ => Ok v
  | _ => Raise AttributeError
  end.

(** The elements a [for] loop over [v] visits: a dict gives its keys and a
    string its characters (one byte each here). *)
Definition py_iter (v : pyval) : result (list pyval) :=
  match v with
  | PList l => Ok l
  | PDict d => Ok (map (fun kv => PStr (fst kv)) d)
  | PStr s => Ok (map (fun c => PStr (String c EmptyString)) (list_ascii_of_string s))
  | _ => Raise TypeError
  end.

(** [str(v)], as an f-string renders a field. *)
Definition py_str (v : pyval) : result string :=
  match v with
  | PNone => Ok "None"
  | PBool true => Ok "True"
  | PBool false => Ok "False"
  | PInt z => Ok (NilEmpty.string_of_int (Z.to_int z))
  | PStr s => Ok s
  | PList _ | PDict _ => Raise ReprUnmodelled
  end.

(** [s.endswith(suf)] *)
Fixpoint endswith (s suf : string) : bool :=
  String.eqb s suf ||
  match s with
  | EmptyString => false
  | String _ s' => endswith s' suf
  end.

(** [s.startswith(pre)] *)
Definition startswith (s pre : string) : bool := String.prefix pre s.

(** *** Keys of the document version table *)

(** What a hashable value is as a dict key: [True] and [1] are one key. *)
Inductive hkey := HNone | HNum (z : Z) | HStr (s : string).

#[global] Instance hkey_eq_dec : EqDecision hkey.
Proof. solve_decision. Defined.

#[global] Program Instance hkey_countable : Countable hkey :=
  inj_countable'
    (fun k => match k with
              | HNone => inl tt
              | HNum z => inr (inl z)
              | HStr s => inr (inr s)
              end)
    (fun x => match x with
              | inl _ => HNone
              | inr (inl z) => HNum z
              | inr (inr s) => HStr s
              end) _.
Next Obligation. intros [ | z | s]; reflexivity. Qed.

(** [hash(v)] fails on lists and dicts. *)
Definition py_key (v : pyval) : result hkey :=
  match v with
  | PNone => Ok HNone
  | PBool b => Ok (HNum (Z.b2z b))
  | PInt z => Ok (HNum z)
  | PStr s => Ok (HStr s)
  | PList _ | PDict _ => Raise TypeError
  end.

(** ** util.py *)

Definition is_scalar (v : pyval) : bool :=
  match v with
  | PList _ | PDict _ => false
  | _ => true
  end.

(** [dmerge(d1, d2)], by recursion on the value that holds [d2]: the loop
    runs over the items of [d2] with [result] starting as a copy of [d1]. *)
Fixpoint dmerge_rec (v2 : pyval) (d1 : pydict) {struct v2} : pydict :=
  match v2 with
  | PDict d2 =>
      (fix loop (d2 : pydict) (result : pydict) {struct d2} : pydict :=
         match d2 with
         | [] => result
         | (key, value) :: rest =>
             loop rest
               match dict_get key result with
               | Some v1 =>
                   match v1, value with
                   | PDict a, PDict _ =>
                       dict_set key (PDict (dmerge_rec value a)) result
                   | PList a, PList b => dict_set key (PList (a ++ b)) result
                   | _, _ =>
                       if is_scalar v1 && negb (is_scalar value)
                       then dict_set key value result
                       else if negb (is_scalar v1) && is_scalar value
                       then dict_set key v1 result
                       else result
                   end
               | None => dict_set key value result
               end
         end) d2 d1
  | _ => d1
  end.

Definition dmerge (d1 d2 : pydict) : pydict := dmerge_rec (PDict d2) d1.

(** ** frassum.py: the data model *)

(** The address of a [Server] object. *)
Definition addr := nat.

Record Server := mkServer {
  name : pyval;
  caps : pyval;
  cookie : pyval
}.

(** The [Server] objects of the session, by address. *)
Definition store := addr -> Server.

Definition store_set (h : store) (a : addr) (s : Server) : store :=
  fun a' => if Nat.eqb a' a then s else h a'.

(** The [__eq__] that [@dataclass] generates: the tuples of fields are
    compared.  Both operands are [Server] objects here, so the class test
    of the generated method always passes. *)
Definition Server_eq (s1 s2 : Server) : bool :=
  py_eq (name s1) (name s2) && py_eq (caps s1) (caps s2) &&
  py_eq (cookie s1) (cookie s2).

(** [a is b] *)
Definition Server_is (a b : addr) : bool := Nat.eqb a b.

Record DataCookie := mkDataCookie {
  data : pyval;
  server : addr
}.

Record LspLogic := mkLspLogic {
  primary_server : addr;
  document_versions : gmap hkey pyval;
  data_cookies : gmap string DataCookie;
  _data_cookie_counter : nat
}.

(** [LspLogic(primary_server)] *)
Definition LspLogic_init (primary : addr) : LspLogic :=
  mkLspLogic primary ∅ ∅ 0.

Definition set_document_versions (self : LspLogic) (dv : gmap hkey pyval) : LspLogic :=
  mkLspLogic (primary_server self) dv (data_cookies self)
    (_data_cookie_counter self).

Definition is_none (v : pyval) : bool :=
  match v with PNone => true | _ => false end.

(** ** Routing *)

(** [f"rassumfrassum-{n}"] *)
Definition cookie_id (n : nat) : string :=
  "rassumfrassum-" ++ NilEmpty.string_of_uint (Nat.to_uint n).

(** The methods that go to at most one server, with the capability each
    requires. *)
Definition single_target_caps : list (string * string) :=
  [ ("textDocument/rename", "renameProvider");
    ("textDocument/formatting", "documentFormattingProvider");
    ("textDocument/rangeFormatting", "documentRangeFormattingProvider") ].

(** [[s for s in servers if s.caps.get(cap)]] *)
Fixpoint all_with_cap (h : store) (cap : string) (servers : list addr)
  : result (list addr) :=
  match servers with
  | [] => Ok []
  | s :: rest =>
      c ← py_get cap PNone (caps (h s));
      l ← all_with_cap h cap rest;
      Ok (if truthy c then s :: l else l)
  end.

(** The loop that returns [[s]] at the first server with the capability,
    and [[]] when it runs out. *)
Fixpoint first_with_cap (h : store) (cap : string) (servers : list addr)
  : result (list addr) :=
  match servers with
  | [] => Ok []
  | s :: rest =>
      c ← py_get cap PNone (caps (h s));
      if truthy c then Ok [s] else first_with_cap h cap rest
  end.

(** The cookie a resolve request's [data] stands for, if any. *)
Definition lookup_cookie (self : LspLogic) (d : pyval) : option DataCookie :=
  match d with
  | PStr id =>
      if startswith id "rassumfrassum-" then data_cookies self !! id else None
  | _ => None
  end.

(** [servers_to_route_to(method, params, servers)]: the final value of
    [params] and the list returned. *)
Definition servers_to_route_to (self : LspLogic) (h : store)
  (method : string) (params : pyval) (servers : list addr)
  : result (pyval * list addr) :=
  d ← (if truthy params && endswith method "resolve"
       then py_get "data" PNone params
       else Ok PNone);
  match lookup_cookie self d with
  | Some c =>
      params' ← py_setitem "data" (data c) params;
      Ok (params', [server c])
  | None =>
      if String.eqb method "initialize" || String.eqb method "shutdown"
      then Ok (params, servers)
      else if String.eqb method "textDocument/codeAction"
      then l ← all_with_cap h "codeActionProvider" servers; Ok (params, l)
      else
        match dict_get method single_target_caps with
        | Some cap => l ← first_with_cap h cap servers; Ok (params, l)
        | None =>
            Ok (params,
                match servers with
                | [] => []
                | _ :: _ => [primary_server self]
                end)
        end
  end.

(** ** Document versions *)

(** The body shared by the [didOpen] and [didChange] branches. *)
Definition record_version (self : LspLogic) (params : pyval) : result LspLogic :=
  text_doc ← py_get "textDocument" (PDict []) params;
  uri ← py_get "uri" PNone text_doc;
  version ← py_get "version" PNone text_doc;
  if negb (is_none uri) && negb (is_none version)
  then k ← py_key uri;
       Ok (set_document_versions self (<[k := version]> (document_versions self)))
  else Ok self.

Definition on_client_notification (self : LspLogic) (method : string)
  (params : pyval) : result LspLogic :=
  if String.eqb method "textDocument/didOpen" then record_version self params
  else if String.eqb method "textDocument/didChange" then record_version self params
  else if String.eqb method "textDocument/didClose" then
    text_doc ← py_get "textDocument" (PDict []) params;
    uri ← py_get "uri" PNone text_doc;
    if negb (is_none uri)
    then k ← py_key uri;
         Ok (set_document_versions self (delete k (document_versions self)))
    else Ok self
  else Ok self.

(** ** Aggregation keys and timeouts *)

(** [get_notif_aggregation_key(method, payload)]: [None], or the tuple
    returned, as the list of its components. *)
Definition get_notif_aggregation_key (self : LspLogic) (method : option string)
  (payload : pyval) : result (option (list pyval)) :=
  match method with
  | Some m =>
      if String.eqb m "textDocument/publishDiagnostics" then
        uri ← py_get "uri" (PStr "") payload;
        version ← py_get "version" PNone payload;
        k ← py_key uri;
        let key v :=
          Some [PStr "notification"; PStr m; uri; py_or v (PInt 0)] in
        match document_versions self !! k with
        | Some tracked_version =>
            if is_none version then Ok (key tracked_version)
            else
              stale ← py_lt version tracked_version;
              if stale : bool then Ok (Some [PStr "drop"]) else Ok (key version)
        | None => Ok (key version)
        end
      else Ok None
  | None => Ok None
  end.

Definition get_aggregation_timeout_ms (method : option string) : Z :=
  match method with
  | Some m =>
      if String.eqb m "textDocument/publishDiagnostics" then 1000%Z else 1500%Z
  | None => 1500%Z
  end.

(** ** Post-processing of server messages *)

(** [_stash_data_maybe(payload, server)]: the engine afterwards and the
    final value of [payload]. *)
Definition _stash_data_maybe (self : LspLogic) (payload : pyval) (srv : addr)
  : result (LspLogic * pyval) :=
  if negb (truthy payload) then Ok (self, payload)
  else
    has ← py_in "data" payload;
    if negb has then Ok (self, payload)
    else
      let counter := S (_data_cookie_counter self) in
      let id := cookie_id counter in
      d ← py_getitem "data" payload;
      payload' ← py_setitem "data" (PStr id) payload;
      Ok (mkLspLogic (primary_server self) (document_versions self)
            (<[id := mkDataCookie d srv]> (data_cookies self)) counter,
          payload').

(** The loop [for action in response_payload: self._stash_data_maybe(...)]
    over the elements [actions], which are mutated in place. *)
Fixpoint stash_all (self : LspLogic) (actions : list pyval) (srv : addr)
  : result (LspLogic * list pyval) :=
  match actions with
  | [] => Ok (self, [])
  | action :: rest =>
      '(self1, action') ← _stash_data_maybe self action srv;
      '(self2, rest') ← stash_all self1 rest srv;
      Ok (self2, action' :: rest')
  end.

(** What an in-place update of the elements visited by a loop leaves in
    the container: the elements of a list are objects of their own, the
    keys of a dict and the characters of a string are not. *)
Definition with_elements (container : pyval) (elems : list pyval) : pyval :=
  match container with
  | PList _ => PList elems
  | _ => container
  end.

(** [if 'source' not in diag: diag['source'] = source.name] *)
Definition tag_diag (source_name : pyval) (diag : pyval) : result pyval :=
  has ← py_in "source" diag;
  if has : bool then Ok diag else py_setitem "source" source_name diag.

(** The attribution loop over [diags]. *)
Definition tag_diags (source_name : pyval) (diags : pyval) : result pyval :=
  elems ← py_iter diags;
  elems' ← mapM (tag_diag source_name) elems;
  Ok (with_elements diags elems').

(** [params['diagnostics']] after its elements were updated; with the key
    absent the loop ran over the default list and [params] is as it was. *)
Definition put_back (k : string) (x : pyval) (v : pyval) : pyval :=
  match v with
  | PDict d => if dict_has k d then PDict (dict_set k x d) else v
  | _ => v
  end.

(** [on_server_notification(method, params, source)]: the final value of
    [params]. *)
Definition on_server_notification (h : store) (method : string)
  (params : pyval) (source : addr) : result pyval :=
  if String.eqb method "textDocument/publishDiagnostics" then
    diags ← py_get "diagnostics" (PList []) params;
    diags' ← tag_diags (name (h source)) diags;
    Ok (put_back "diagnostics" diags' params)
  else Ok params.

(** [on_server_response(method, request_params, response_payload,
    is_error, server)]: the engine, the store and the payload afterwards. *)
Definition on_server_response (self : LspLogic) (h : store)
  (method : option string) (request_params response_payload : pyval)
  (is_error : bool) (srv : addr) : result (LspLogic * store * pyval) :=
  if negb (truthy response_payload) || is_error
  then Ok (self, h, response_payload)
  else
    '(self1, payload1) ←
      (if bool_decide (method = Some "textDocument/codeAction") then
         actions ← py_iter response_payload;
         '(self', actions') ← stash_all self actions srv;
         Ok (self', with_elements response_payload actions')
       else Ok (self, response_payload));
    if bool_decide (method = Some "initialize") then
      info ← py_get "serverInfo" (PDict []) payload1;
      has ← py_in "name" info;
      h1 ← (if has : bool then
              info' ← py_getitem "serverInfo" payload1;
              n ← py_getitem "name" info';
              Ok (store_set h srv (mkServer n (caps (h srv)) (cookie (h srv))))
            else Ok h);
      c ← py_get "capabilities" PNone payload1;
      c' ← (if truthy c then py_copy c else Ok (PDict []));
      Ok (self1,
          store_set h1 srv (mkServer (name (h1 srv)) c' (cookie (h1 srv))),
          payload1)
    else Ok (self1, h, payload1).

(** ** Aggregation of payloads *)

(** The local function [t1sync] of the capability loop. *)
Definition t1sync (x : pyval) : bool :=
  py_eq x (PInt 1) ||
  match x with
  | PDict d => py_eq (default PNone (dict_get "change" d)) (PInt 1)
  | _ => false
  end.

(** One turn of the loop [for cap, newval in new.items()] on [res]. *)
Definition merge_cap (res : pyval) (item : string * pyval) : result pyval :=
  let '(cap, newval) := item in
  cur ← py_get cap PNone res;
  if is_none cur then py_setitem cap newval res
  else if String.eqb cap "textDocumentSync" && t1sync newval
  then py_setitem cap newval res
  else if is_scalar newval && is_none cur then py_setitem cap newval res
  else if is_scalar cur && negb (is_scalar newval)
  then py_setitem cap newval res
  else
    match cur, newval with
    | PDict a, PDict b =>
        if negb (String.eqb cap "semanticTokensProvider")
        then py_setitem cap (PDict (dmerge a b)) res
        else Ok res
    | _, _ => Ok res
    end.

Fixpoint merge_caps (res : pyval) (items : pydict) : result pyval :=
  match items with
  | [] => Ok res
  | item :: rest => res' ← merge_cap res item; merge_caps res' rest
  end.

(** The local function [merge_field(field, s)], closed over [aggregate],
    [s_info] and [primary_payload]. *)
Definition merge_field (aggregate s_info : pyval) (primary_payload : bool)
  (field s : string) : result pyval :=
  merged_info ← py_get "serverInfo" (PDict []) aggregate;
  cur ← py_get field (PStr "") merged_info;
  new ← py_get field (PStr "") s_info;
  if negb (truthy cur && truthy new) then Ok (py_or new cur)
  else if primary_payload then
    n ← py_str new; c ← py_str cur; Ok (PStr (n ++ s ++ c))
  else
    c ← py_str cur; n ← py_str new; Ok (PStr (c ++ s ++ n)).

(** [_merge_initialize_payloads(aggregate, payload, source)]: the mutated
    aggregate, which is also the value returned. *)
Definition _merge_initialize_payloads (self : LspLogic) (h : store)
  (aggregate payload : pyval) (source : addr) : result pyval :=
  let primary_payload := Server_eq (h source) (h (primary_server self)) in
  res ← py_get "capabilities" (PDict []) aggregate;
  new ← py_get "capabilities" (PDict []) payload;
  items ← py_items new;
  res' ← merge_caps res items;
  aggregate1 ← py_setitem "capabilities" res' aggregate;
  s_info ← py_get "serverInfo" (PDict []) payload;
  if truthy s_info then
    nm ← merge_field aggregate1 s_info primary_payload "name" "+";
    ver ← merge_field aggregate1 s_info primary_payload "version" ",";
    py_setitem "serverInfo" (PDict [("name", nm); ("version", ver)]) aggregate1
  else Ok aggregate1.

(** What a call of [aggregate_payloads] leaves: the value returned and the
    final values of the two arguments it may mutate. *)
Record Aggregated := mkAggregated {
  returned : pyval;
  aggregate_after : pyval;
  payload_after : pyval
}.

Definition aggregate_payloads (self : LspLogic) (h : store) (method : string)
  (aggregate payload : pyval) (source : addr) (is_error : bool)
  : result Aggregated :=
  if is_error then Ok (mkAggregated aggregate aggregate payload)
  else if String.eqb method "textDocument/publishDiagnostics" then
    current_diags ← py_get "diagnostics" (PList []) aggregate;
    new_diags ← py_get "diagnostics" (PList []) payload;
    new_diags' ← tag_diags (name (h source)) new_diags;
    all_diags ← py_add current_diags new_diags';
    aggregate' ← py_setitem "diagnostics" all_diags aggregate;
    Ok (mkAggregated aggregate' aggregate'
          (put_back "diagnostics" new_diags' payload))
  else if String.eqb method "textDocument/codeAction" then
    r ← py_add (py_or aggregate (PList [])) (py_or payload (PList []));
    Ok (mkAggregated r aggregate payload)
  else if String.eqb method "initialize" then
    aggregate' ← _merge_initialize_payloads self h aggregate payload source;
    Ok (mkAggregated aggregate' aggregate' payload)
  else if String.eqb method "shutdown" then
    Ok (mkAggregated aggregate aggregate payload)
  else Ok (mkAggregated aggregate aggregate payload).

(** ** Vocabulary of the properties *)

(** The cookie that rule 1 of the routing finds for a request with the
    parameters [p], if any. *)
Definition recovers (self : LspLogic) (method : string) (p : pydict)
  : option DataCookie :=
  if endswith method "resolve"
  then lookup_cookie self (default PNone (dict_get "data" p))
  else None.

(** The methods that rules 2 to 4 of the routing take. *)
Definition routed_by_rule (method : string) : bool :=
  String.eqb method "initialize" || String.eqb method "shutdown" ||
  String.eqb method "textDocument/codeAction" ||
  dict_has method single_target_caps.

(** The entry points that change the engine. *)
Inductive step : LspLogic -> LspLogic -> Prop :=
| step_client_notification self method params self' :
    on_client_notification self method params = Ok self' ->
    step self self'
| step_server_response self h method request_params payload is_error srv
    self' h' payload' :
    on_server_response self h method request_params payload is_error srv
    = Ok (self', h', payload') ->
    step self self'
| step_stash self payload srv self' payload' :
    _stash_data_maybe self payload srv = Ok (self', payload') ->
    step self self'.

(** The engine holds the cookie [c] under the identifier number [n]. *)
Definition holds_cookie (n : nat) (c : DataCookie) (self : LspLogic) : Prop :=
  n <= _data_cookie_counter self /\
  data_cookies self !! cookie_id n = Some c.

(** A run of client notifications, each a method with its parameters. *)
Fixpoint run_notifications (self : LspLogic) (msgs : list (string * pyval))
  : result LspLogic :=
  match msgs with
  | [] => Ok self
  | (method, params) :: rest =>
      self' ← on_client_notification self method params;
      run_notifications self' rest
  end.

(** The notification is a [didOpen] or [didChange] whose [textDocument]
    names the document of key [k] with the version [v]. *)
Definition carries (msg : string * pyval) (k : hkey) (v : pyval) : Prop :=
  (fst msg = "textDocument/didOpen" \/ fst msg = "textDocument/didChange") /\
  exists text_doc uri,
    py_get "textDocument" (PDict []) (snd msg) = Ok text_doc /\
    py_get "uri" PNone text_doc = Ok uri /\
    py_key uri = Ok k /\
    py_get "version" PNone text_doc = Ok v /\
    v <> PNone.

(** Incremental sync, the counterpart of [t1sync]: the bare kind 2, or an
    options object whose [change] is 2. *)
Definition incremental_sync (x : pyval) : bool :=
  py_eq x (PInt 2) ||
  match x with
  | PDict d => py_eq (default PNone (dict_get "change" d)) (PInt 2)
  | _ => false
  end.

(** One turn of the loop of [dmerge] on [result]. *)
Definition dmerge_step (result : pydict) (item : string * pyval) : pydict :=
  let '(key, value) := item in
  match dict_get key result with
  | Some v1 =>
      match v1, value with
      | PDict a, PDict b => dict_set key (PDict (dmerge a b)) result
      | PList a, PList b => dict_set key (PList (a ++ b)) result
      | _, _ =>
          if is_scalar v1 && negb (is_scalar value)
          then dict_set key value result
          else if negb (is_scalar v1) && is_scalar value
          then dict_set key v1 result
          else result
      end
  | None => dict_set key value result
  end.

(** The merged text of a [serverInfo] field, in the words of the
    specification: with a side empty, the side that is not; otherwise both,
    the new reply's first when it is the primary's. *)
Definition merged_text (from_primary : bool) (sep cur new : string) : string :=
  if String.eqb cur "" then new
  else if String.eqb new "" then cur
  else if from_primary then new ++ sep ++ cur
  else cur ++ sep ++ new.

(** The fields of a server hold well-formed values. *)
Definition wf_Server (s : Server) : bool :=
  wf_pyval (name s) && wf_pyval (caps s) && wf_pyval (cookie s).

(** ** Sample data *)

Definition diagnostics_method : string := "textDocument/publishDiagnostics".

(** An engine that tracks version 3 of one document. *)
Definition tracking_engine : LspLogic :=
  mkLspLogic 0 (<[HStr "file:///a.py" := PInt 3]> ∅) ∅ 0.

(** An engine that holds one cookie, stashed for the server at address 5. *)
Definition cookie_engine : LspLogic :=
  mkLspLogic 0 ∅ (<["rassumfrassum-1" := mkDataCookie (PInt 7) 5]> ∅) 1.

(** Two servers with names and capabilities of their own at the addresses
    0 and 1, and a bare one everywhere else. *)
Definition two_servers : store := fun a =>
  match a with
  | 0 => mkServer (PStr "pylsp") (PDict [("renameProvider", PBool true)]) PNone
  | 1 => mkServer (PStr "ruff") (PDict [("codeActionProvider", PBool true)]) PNone
  | _ => mkServer (PStr "") (PDict []) PNone
  end.

(** Server objects that all have the same fields. *)
Definition twin_servers : store := fun _ =>
  mkServer (PStr "pylsp") (PDict [("hoverProvider", PBool true)]) PNone.

Definition action_item : pydict :=
  [("title", PStr "Organize imports"); ("data", PDict [("id", PInt 7)])].

Definition open_negative : string * pyval :=
  ("textDocument/didOpen",
   PDict [("textDocument",
           PDict [("uri", PStr "file:///a.py"); ("version", PInt (-1))])]).

Definition first_reply : pydict :=
  [("capabilities", PDict [("textDocumentSync", PInt 1)]);
   ("serverInfo", PDict [("name", PStr "pylsp"); ("version", PStr "1.0")])].

Definition second_reply : pydict :=
  [("capabilities",
    PDict [("textDocumentSync",
            PDict [("openClose", PBool true); ("change", PInt 2)])]);
   ("serverInfo", PDict [("name", PStr "ruff"); ("version", PStr "0.4")])].

(** ** Vocabulary of the further properties *)

(** The server at [s] announces the capability [cap] with a truthy
    value. *)
Definition has_cap (h : store) (cap : string) (s : addr) : bool :=
  match caps (h s) with
  | PDict d => truthy (default PNone (dict_get cap d))
  | _ => false
  end.

(** The capabilities of every candidate are an object. *)
Definition caps_are_dicts (h : store) (servers : list addr) : Prop :=
  Forall (fun s => exists d, caps (h s) = PDict d) servers.

(** The engines a session can reach from its start. *)
Definition reachable (self : LspLogic) : Prop :=
  exists primary, rtc step (LspLogic_init primary) self.

(** The attribution of one diagnostic object. *)
Definition attribute (source_name : pyval) (diag : pydict) : pydict :=
  if dict_has "source" diag then diag else dict_set "source" source_name diag.

Definition is_dict (v : pyval) : Prop := exists d, v = PDict d.

(** The list a reply stands for in the concatenation of code actions. *)
Definition actions_of (v : pyval) : list pyval :=
  match v with
  | PList l => l
  | _ => []
  end.

(** What [dmerge] leaves under a key, from what the two dicts hold
    there. *)
Definition dmerge_value (o1 o2 : option pyval) : option pyval :=
  match o1, o2 with
  | None, _ => o2
  | Some v1, None => Some v1
  | Some (PDict a), Some (PDict b) => Some (PDict (dmerge a b))
  | Some (PList a), Some (PList b) => Some (PList (a ++ b))
  | Some v1, Some v2 =>
      if is_scalar v1 && negb (is_scalar v2) then Some v2 else Some v1
  end.

(** What the capability loop leaves under [cap], from the aggregate's
    entry and the reply's value. *)
Definition merged_cap (cap : string) (o : option pyval) (newval : pyval)
  : pyval :=
  match o with
  | None | Some PNone => newval
  | Some cur =>
      if String.eqb cap "textDocumentSync" && t1sync newval then newval
      else if is_scalar cur && negb (is_scalar newval) then newval
      else
        match cur, newval with
        | PDict a, PDict b =>
            if String.eqb cap "semanticTokensProvider" then cur
            else PDict (dmerge a b)
        | _, _ => cur
        end
  end.

(** The keys of the cookie table are tokens issued so far: each is the
    token of a number from 1 to the counter. *)
Definition cookie_keys_issued (self : LspLogic) : Prop :=
  forall id,
    is_Some (data_cookies self !! id) ->
    exists n, 1 <= n <= _data_cookie_counter self /\ id = cookie_id n.

(** [self._data_cookie_counter += 1] alone. *)
Definition bump_counter (self : LspLogic) : LspLogic :=
  mkLspLogic (primary_server self) (document_versions self)
    (data_cookies self) (S (_data_cookie_counter self)).

(** The engine that a call of [_stash_data_maybe] leaves, also when the
    call raises.  The counter is incremented before [payload['data']] is
    read, so a call that raises there (a string or a list that contains
    'data') leaves the counter incremented and the table as it was; a call
    that raises in the test ['data' not in payload] leaves the engine as it
    was. *)
Definition stash_aftermath (self : LspLogic) (payload : pyval) (srv : addr)
  : LspLogic :=
  match _stash_data_maybe self payload srv with
  | Ok (self', _) => self'
  | Raise _ =>
      if truthy payload then
        match py_in "data" payload with
        | Ok true => bump_counter self
        | _ => self
        end
      else self
  end.

(** The engine that the loop over the actions leaves: the loop ends at the
    first call that raises. *)
Fixpoint stash_all_aftermath (self : LspLogic) (actions : list pyval)
  (srv : addr) : LspLogic :=
  match actions with
  | [] => self
  | action :: rest =>
      match _stash_data_maybe self action srv with
      | Ok (self1, _) => stash_all_aftermath self1 rest srv
      | Raise _ => stash_aftermath self action srv
      end
  end.

(** The engine that a call of [on_server_response] leaves, also when the
    call raises: only the loop of the code-action branch changes it. *)
Definition response_aftermath (self : LspLogic) (method : option string)
  (response_payload : pyval) (is_error : bool) (srv : addr) : LspLogic :=
  if negb (truthy response_payload) || is_error then self
  else if bool_decide (method = Some "textDocument/codeAction") then
    match py_iter response_payload with
    | Ok actions => stash_all_aftermath self actions srv
    | Raise _ => self
    end
  else self.

(** The moves of the engine, those of calls that raise included.  A client
    notification that raises has changed nothing yet. *)
Inductive step_any : LspLogic -> LspLogic -> Prop :=
| any_returns self self' : step self self' -> step_any self self'
| any_stash_raises self payload srv e :
    _stash_data_maybe self payload srv = Raise e ->
    step_any self (stash_aftermath self payload srv)
| any_response_raises self h method request_params payload is_error srv e :
    on_server_response self h method request_params payload is_error srv
    = Raise e ->
    step_any self (response_aftermath self method payload is_error srv).

(** The engines a session can reach when callers catch what is raised. *)
Definition reachable_any (self : LspLogic) : Prop :=
  exists primary, rtc step_any (LspLogic_init primary) self.

(** From the engine [self] on, a resolve request that carries [token]
    gets [d] back and goes to [srv] alone. *)
Definition resolves_to (self : LspLogic) (token : string) (d : pyval)
  (srv : addr) : Prop :=
  forall self2 h method p servers,
    rtc step self self2 ->
    endswith method "resolve" = true ->
    dict_get "data" p = Some (PStr token) ->
    servers_to_route_to self2 h method (PDict p) servers
    = Ok (PDict (dict_set "data" d p), [srv]).

(** The item [it'] is what stashing for [srv] made of the item [it]: the
    same item when it has no [data], and else the item with a token that
    resolves to its [data]. *)
Definition stashed_as (self : LspLogic) (srv : addr) (it it' : pyval) : Prop :=
  exists item,
    it = PDict item /\
    match dict_get "data" item with
    | None => it' = it
    | Some d =>
        exists token,
          it' = PDict (dict_set "data" (PStr token) item) /\
          resolves_to self token d srv
    end.

(** ** More sample data *)

(** The engine after the first stash of a session, for the server 1. *)
Definition stashed_engine : LspLogic :=
  mkLspLogic 0 ∅
    (<[cookie_id 1 := mkDataCookie (PDict [("id", PInt 7)]) 1]> ∅) 1.

(** The engine after a stash that raised on the string "metadata" and a
    stash that returned, both for the server 1. *)
Definition engine_after_failed_stash : LspLogic :=
  mkLspLogic 0 ∅
    (<[cookie_id 2 := mkDataCookie (PDict [("id", PInt 7)]) 1]> ∅) 2.

Definition plain_action : pydict := [("title", PStr "Rename symbol")].

Definition change_to_5 : pydict :=
  [("textDocument", PDict [("uri", PStr "file:///a.py"); ("version", PInt 5)])].

Definition close_a : pydict :=
  [("textDocument", PDict [("uri", PStr "file:///a.py")])].

Definition diagnostics_v4 : pydict :=
  [("uri", PStr "file:///a.py"); ("version", PInt 4);
   ("diagnostics", PList [])].

Definition two_diagnostics : list pydict :=
  [ [("message", PStr "unused import")];
    [("message", PStr "line too long"); ("source", PStr "flake8")] ].

Definition published : pydict :=
  [("uri", PStr "file:///a.py");
   ("diagnostics", PList (map PDict two_diagnostics))].

Definition left_options : pydict :=
  [("triggerCharacters", PList [PStr "."]); ("resolveProvider", PBool false);
   ("legend", PBool true)].

Definition right_options : pydict :=
  [("resolveProvider", PBool true); ("triggerCharacters", PList [PStr ":"]);
   ("legend", PDict [("tokenTypes", PList [])]); ("workDoneProgress", PBool true)].

Definition aggregate_caps : pydict :=
  [("hoverProvider", PBool false); ("textDocumentSync", PInt 2)].

Definition reply_caps : pydict :=
  [("hoverProvider", PBool true); ("renameProvider", PBool true)].

(** * Properties *)

(** ** Dicts *)

Lemma dict_get_set_eq {V} (k : string) (v : V) d :
  dict_get k (dict_set k v d) = Some v.
Proof.
  induction d as [ | [k' v'] d IH]; simpl.
  - now rewrite String.eqb_refl.
  - destruct (String.eqb k k') eqn:E; simpl; rewrite ?E, ?String.eqb_refl; auto.
Qed.

Lemma dict_get_set_ne {V} (k k' : string) (v : V) d :
  k <> k' -> dict_get k' (dict_set k v d) = dict_get k' d.
Proof.
  intros Hne. induction d as [ | [k0 v0] d IH]; simpl.
  - destruct (String.eqb_spec k' k); congruence.
  - destruct (String.eqb_spec k k0) as [-> | Hk]; simpl.
    + destruct (String.eqb_spec k' k0); congruence.
    + destruct (String.eqb_spec k' k0); auto.
Qed.

(** ** Routing *)

Lemma endswith_resolve_unrouted method :
  endswith method "resolve" = true -> routed_by_rule method = false.
Proof.
  intros H. unfold routed_by_rule, dict_has, single_target_caps, dict_get.
  repeat match goal with
  | |- context [String.eqb method ?c] =>
      destruct (String.eqb_spec method c) as [-> | _];
      [vm_compute in H; discriminate | ]
  end.
  reflexivity.
Qed.

Lemma route_recovered self h method p servers c :
  recovers self method p = Some c ->
  servers_to_route_to self h method (PDict p) servers
  = Ok (PDict (dict_set "data" (data c) p), [server c]).
Proof.
  unfold recovers, servers_to_route_to. intros H.
  destruct (endswith method "resolve") eqn:E; [ | discriminate].
  destruct p as [ | kv p]; [discriminate | ].
  cbn. cbn in H. rewrite H. reflexivity.
Qed.

Lemma route_default self h method p servers :
  recovers self method p = None ->
  routed_by_rule method = false ->
  servers_to_route_to self h method (PDict p) servers
  = Ok (PDict p,
        match servers with [] => [] | _ :: _ => [primary_server self] end).
Proof.
  unfold recovers, servers_to_route_to, routed_by_rule, dict_has.
  intros Hrec Hrule.
  apply orb_false_elim in Hrule as [Hrule Htab].
  apply orb_false_elim in Hrule as [Hrule Hca].
  destruct (dict_get method single_target_caps) eqn:Et; [discriminate | ].
  assert (Hd : (if truthy (PDict p) && endswith method "resolve"
                then py_get "data" PNone (PDict p) else Ok PNone)
               = Ok (if endswith method "resolve"
                     then default PNone (dict_get "data" p) else PNone)).
  { destruct p; destruct (endswith method "resolve"); reflexivity. }
  rewrite Hd. cbn [mbind result_bind].
  replace (lookup_cookie self _) with (@None DataCookie).
  2:{ destruct (endswith method "resolve"); [now rewrite Hrec | reflexivity]. }
  now rewrite Hrule, Hca.
Qed.

(** ** The result monad *)

Lemma bind_Ok_inv {A B} (m : result A) (f : A -> result B) (b : B) :
  m ≫= f = Ok b -> exists a, m = Ok a /\ f a = Ok b.
Proof. destruct m as [a | e]; [eauto | discriminate]. Qed.

Ltac inv_bind H :=
  let a := fresh "x" in
  let Ha := fresh "Hx" in
  apply bind_Ok_inv in H as (a & Ha & H).

(** ** Cookies *)

Lemma cookie_id_inj n m : cookie_id n = cookie_id m -> n = m.
Proof.
  unfold cookie_id. intros H.
  assert (Hs : NilEmpty.string_of_uint (Nat.to_uint n)
               = NilEmpty.string_of_uint (Nat.to_uint m)).
  { cbn [String.append] in H. now injection H. }
  assert (Hu : Some (Nat.to_uint n) = Some (Nat.to_uint m)).
  { rewrite <- !NilEmpty.usu. now rewrite Hs. }
  injection Hu as Hu.
  rewrite <- (DecimalNat.Unsigned.of_to n), <- (DecimalNat.Unsigned.of_to m).
  now rewrite Hu.
Qed.

Lemma prefix_append s x : String.prefix s (s ++ x) = true.
Proof.
  induction s as [ | a s IH]; simpl.
  - now destruct x.
  - destruct (ascii_dec a a); [exact IH | congruence].
Qed.

Lemma cookie_id_prefix n : startswith (cookie_id n) "rassumfrassum-" = true.
Proof. apply prefix_append. Qed.

Lemma lookup_cookie_id self n :
  lookup_cookie self (PStr (cookie_id n)) = data_cookies self !! cookie_id n.
Proof. unfold lookup_cookie. now rewrite cookie_id_prefix. Qed.

Lemma dict_get_truthy p k (v : pyval) :
  dict_get k p = Some v -> truthy (PDict p) = true.
Proof. destruct p; [discriminate | reflexivity]. Qed.

(** What stashing does to an item that has a [data] field. *)
Lemma stash_data self item d srv :
  dict_get "data" item = Some d ->
  _stash_data_maybe self (PDict item) srv
  = Ok (mkLspLogic (primary_server self) (document_versions self)
          (<[cookie_id (S (_data_cookie_counter self)) := mkDataCookie d srv]>
             (data_cookies self))
          (S (_data_cookie_counter self)),
        PDict (dict_set "data"
                 (PStr (cookie_id (S (_data_cookie_counter self)))) item)).
Proof.
  intros Hd. unfold _stash_data_maybe.
  rewrite (dict_get_truthy _ _ _ Hd).
  unfold py_in, py_getitem, py_setitem, dict_has. rewrite Hd. reflexivity.
Qed.

Lemma stash_keeps n c self payload srv self' payload' :
  holds_cookie n c self ->
  _stash_data_maybe self payload srv = Ok (self', payload') ->
  holds_cookie n c self'.
Proof.
  intros [Hle Hc] H. unfold _stash_data_maybe in H.
  destruct (negb (truthy payload)); [now inversion H; subst | ].
  inv_bind H. destruct (negb x); [now inversion H; subst | ].
  inv_bind H. inv_bind H. inversion H; subst; clear H.
  split; simpl; [lia | ].
  rewrite lookup_insert_ne; [exact Hc | ].
  intros He. apply cookie_id_inj in He. lia.
Qed.

Lemma stash_all_keeps n c actions : forall self srv self' actions',
  holds_cookie n c self ->
  stash_all self actions srv = Ok (self', actions') ->
  holds_cookie n c self'.
Proof.
  induction actions as [ | a rest IH]; intros self srv self' actions' Hh H.
  - now inversion H; subst.
  - cbn [stash_all] in H. inv_bind H. destruct x as [self1 a'].
    inv_bind H. destruct x as [self2 rest'].
    inversion H; subst; clear H.
    eapply IH; [ | exact Hx0]. eapply stash_keeps; eauto.
Qed.

Lemma record_version_cookies self params self' :
  record_version self params = Ok self' ->
  data_cookies self' = data_cookies self /\
  _data_cookie_counter self' = _data_cookie_counter self.
Proof.
  unfold record_version. intros H.
  inv_bind H. inv_bind H. inv_bind H.
  destruct (negb (is_none x0) && negb (is_none x1)).
  - inv_bind H. now inversion H; subst.
  - now inversion H; subst.
Qed.

Lemma on_client_notification_cookies self method params self' :
  on_client_notification self method params = Ok self' ->
  data_cookies self' = data_cookies self /\
  _data_cookie_counter self' = _data_cookie_counter self.
Proof.
  unfold on_client_notification. intros H.
  destruct (String.eqb method "textDocument/didOpen");
    [now apply record_version_cookies in H | ].
  destruct (String.eqb method "textDocument/didChange");
    [now apply record_version_cookies in H | ].
  destruct (String.eqb method "textDocument/didClose").
  - inv_bind H. inv_bind H. destruct (negb (is_none x0)).
    + inv_bind H. now inversion H; subst.
    + now inversion H; subst.
  - now inversion H; subst.
Qed.

Lemma on_server_response_keeps n c self h method rp payload is_error srv
  self' h' payload' :
  holds_cookie n c self ->
  on_server_response self h method rp payload is_error srv
  = Ok (self', h', payload') ->
  holds_cookie n c self'.
Proof.
  intros Hh H. unfold on_server_response in H.
  destruct (negb (truthy payload) || is_error); [now inversion H; subst | ].
  inv_bind H. destruct x as [self1 payload1].
  assert (H1 : holds_cookie n c self1).
  { destruct (bool_decide (method = Some "textDocument/codeAction")).
    - inv_bind Hx. inv_bind Hx. destruct x0 as [s a].
      inversion Hx; subst; clear Hx. eapply stash_all_keeps; eauto.
    - now inversion Hx; subst. }
  destruct (bool_decide (method = Some "initialize")).
  - do 5 inv_bind H. now inversion H; subst.
  - now inversion H; subst.
Qed.

Lemma step_keeps n c self self' :
  holds_cookie n c self -> step self self' -> holds_cookie n c self'.
Proof.
  intros Hh Hs. destruct Hs as [self m p self' H | self h m rp pl e srv self' h' pl' H | self pl srv self' pl' H].
  - apply on_client_notification_cookies in H as [Hc Hn].
    destruct Hh as [Hle Hl]. split; [lia | congruence].
  - eapply on_server_response_keeps; eauto.
  - eapply stash_keeps; eauto.
Qed.

Lemma steps_keep n c self self' :
  holds_cookie n c self -> rtc step self self' -> holds_cookie n c self'.
Proof.
  intros Hh Hs. induction Hs as [ | s1 s2 s3 H12 _ IH]; [exact Hh | ].
  apply IH. eapply step_keeps; eauto.
Qed.

(** C2. Stash-then-recover round trip: stashing a code-action item that
    carries the data field [d] for the server [srv] replaces the field by a
    token; from then on, however the engine moves, a request whose method
    ends in "resolve" and whose [params.data] is that token gets [d] back in
    [params.data] and is routed to [srv] alone, whatever the candidate
    servers are. *)
Theorem stash_then_resolve_round_trip (self : LspLogic) (item : pydict)
  (d : pyval) (srv : addr) :
  dict_get "data" item = Some d ->
  exists self1 token,
    _stash_data_maybe self (PDict item) srv
    = Ok (self1, PDict (dict_set "data" (PStr token) item)) /\
    token = cookie_id (S (_data_cookie_counter self)) /\
    forall self2 h method p servers,
      rtc step self1 self2 ->
      endswith method "resolve" = true ->
      dict_get "data" p = Some (PStr token) ->
      servers_to_route_to self2 h method (PDict p) servers
      = Ok (PDict (dict_set "data" d p), [srv]).
Proof.
  intros Hd. eexists _, _. split; [exact (stash_data self item d srv Hd) | ].
  split; [reflexivity | ].
  intros self2 h method p servers Hsteps Hm Hp.
  set (n := S (_data_cookie_counter self)).
  assert (Hh : holds_cookie n (mkDataCookie d srv) self2).
  { eapply steps_keep; [ | exact Hsteps].
    split; simpl; [lia | apply lookup_insert_eq]. }
  apply (route_recovered self2 h method p servers (mkDataCookie d srv)).
  unfold recovers. rewrite Hm, Hp. simpl default.
  rewrite lookup_cookie_id. apply Hh.
Qed.

(** C5. An unknown token is no error: a request whose method ends in
    "resolve" and whose [params.data] is a string with the token prefix
    that the cookie table does not hold is routed by the default rule, to
    the primary server alone when there are candidates, with [params] as it
    was. *)
Theorem unknown_token_default_route (self : LspLogic) (h : store)
  (method : string) (p : pydict) (token : string) (servers : list addr) :
  endswith method "resolve" = true ->
  dict_get "data" p = Some (PStr token) ->
  startswith token "rassumfrassum-" = true ->
  data_cookies self !! token = None ->
  servers_to_route_to self h method (PDict p) servers
  = Ok (PDict p,
        match servers with [] => [] | _ :: _ => [primary_server self] end).
Proof.
  intros Hm Hp Hpre Hnone. apply route_default.
  - unfold recovers. rewrite Hm, Hp. unfold lookup_cookie. cbn [default from_option id].
    now rewrite Hpre.
  - now apply endswith_resolve_unrouted.
Qed.

(** C10. The servers returned need not be candidates.  With candidates
    given, the default rule returns the engine's own primary server, and
    cookie recovery returns the server recorded with the cookie; either is
    returned also when it does not occur among the candidates. *)
Theorem route_outside_candidates (self : LspLogic) (h : store)
  (method : string) (p : pydict) (servers : list addr) :
  servers <> [] ->
  (recovers self method p = None ->
   routed_by_rule method = false ->
   primary_server self ∉ servers ->
   exists r, servers_to_route_to self h method (PDict p) servers
             = Ok (PDict p, [r]) /\
             r = primary_server self /\ r ∉ servers) /\
  (forall c, recovers self method p = Some c ->
   server c ∉ servers ->
   exists r p', servers_to_route_to self h method (PDict p) servers
                = Ok (p', [r]) /\
                r = server c /\ r ∉ servers).
Proof.
  intros Hne. split.
  - intros Hrec Hrule Hnotin. exists (primary_server self).
    rewrite (route_default _ _ _ _ _ Hrec Hrule).
    destruct servers; [congruence | auto].
  - intros c Hrec Hnotin. exists (server c), (PDict (dict_set "data" (data c) p)).
    rewrite (route_recovered _ _ _ _ _ _ Hrec). auto.
Qed.

(** ** Aggregation keys *)

Lemma py_lt_true_not_none a b : py_lt a b = Ok true -> is_none a = false.
Proof. destruct a; [discriminate | reflexivity ..]. Qed.

(** C3. A stale diagnostics snapshot is dropped: when the document of the
    payload is in the version table and the payload's version is present
    and less than the tracked one, the key function returns the drop
    signal. *)
Theorem stale_diagnostics_dropped (self : LspLogic) (d : pydict) (k : hkey)
  (version tracked_version : pyval) :
  py_key (default (PStr "") (dict_get "uri" d)) = Ok k ->
  document_versions self !! k = Some tracked_version ->
  dict_get "version" d = Some version ->
  py_lt version tracked_version = Ok true ->
  get_notif_aggregation_key self (Some "textDocument/publishDiagnostics")
    (PDict d)
  = Ok (Some [PStr "drop"]).
Proof.
  intros Hk Ht Hv Hlt. unfold get_notif_aggregation_key.
  cbn [String.eqb Ascii.eqb Bool.eqb py_get mbind result_bind].
  rewrite Hk, Hv. cbn [default from_option id mbind result_bind].
  rewrite Ht, (py_lt_true_not_none _ _ Hlt), Hlt. reflexivity.
Qed.

(** C6. Without a version in the payload, the key carries the tracked
    version of the payload's document, or 0 for a document that is not
    tracked; the key is the tag, the method, the URI and that version.  The
    table holds integers, as its declared type [dict[str, int]] says. *)
Theorem unversioned_diagnostics_key (self : LspLogic) (d : pydict) (k : hkey) :
  py_key (default (PStr "") (dict_get "uri" d)) = Ok k ->
  default PNone (dict_get "version" d) = PNone ->
  (forall t, document_versions self !! k = Some t -> exists z, t = PInt z) ->
  get_notif_aggregation_key self (Some "textDocument/publishDiagnostics")
    (PDict d)
  = Ok (Some [PStr "notification"; PStr "textDocument/publishDiagnostics";
              default (PStr "") (dict_get "uri" d);
              default (PInt 0) (document_versions self !! k)]).
Proof.
  intros Hk Hv Hint. unfold get_notif_aggregation_key.
  cbn [String.eqb Ascii.eqb Bool.eqb py_get mbind result_bind].
  rewrite Hk, Hv. cbn [mbind result_bind is_none].
  destruct (document_versions self !! k) as [t | ] eqn:Ht; [ | reflexivity].
  destruct (Hint t eq_refl) as [z ->]. cbn [default from_option id].
  unfold py_or, truthy. destruct (Z.eqb_spec z 0) as [-> | _]; reflexivity.
Qed.

(** ** Aggregation of payloads *)

(** C4. An error reply contributes nothing: with the error flag set, the
    aggregate is returned as it is, whatever the method, the payload and
    the source, and neither argument is touched. *)
Theorem error_reply_leaves_aggregate (self : LspLogic) (h : store)
  (method : string) (aggregate payload : pyval) (source : addr) :
  aggregate_payloads self h method aggregate payload source true
  = Ok (mkAggregated aggregate aggregate payload).
Proof. reflexivity. Qed.

(** ** Document versions *)

Lemma record_version_source self params self' k v :
  record_version self params = Ok self' ->
  document_versions self' !! k = Some v ->
  document_versions self !! k = Some v \/
  exists text_doc uri,
    py_get "textDocument" (PDict []) params = Ok text_doc /\
    py_get "uri" PNone text_doc = Ok uri /\
    py_key uri = Ok k /\
    py_get "version" PNone text_doc = Ok v /\
    v <> PNone.
Proof.
  unfold record_version. intros H Hl.
  inv_bind H. inv_bind H. inv_bind H.
  destruct (negb (is_none x0) && negb (is_none x1)) eqn:E.
  - inv_bind H. inversion H; subst; clear H. cbn in Hl.
    destruct (decide (x2 = k)) as [-> | Hne].
    + rewrite lookup_insert_eq in Hl. inversion Hl; subst; clear Hl.
      right. exists x, x0. repeat split; auto.
      intros ->. apply andb_prop in E as [_ E]. discriminate.
    + rewrite lookup_insert_ne in Hl by exact Hne. now left.
  - inversion H; subst. now left.
Qed.

Lemma on_client_notification_source self method params self' k v :
  on_client_notification self method params = Ok self' ->
  document_versions self' !! k = Some v ->
  document_versions self !! k = Some v \/ carries (method, params) k v.
Proof.
  unfold on_client_notification, carries. intros H Hl.
  destruct (String.eqb_spec method "textDocument/didOpen") as [-> | _].
  { destruct (record_version_source _ _ _ _ _ H Hl); [now left | right].
    split; [now left | assumption]. }
  destruct (String.eqb_spec method "textDocument/didChange") as [-> | _].
  { destruct (record_version_source _ _ _ _ _ H Hl); [now left | right].
    split; [now right | assumption]. }
  left. destruct (String.eqb method "textDocument/didClose").
  - inv_bind H. inv_bind H. destruct (negb (is_none x0)).
    + inv_bind H. inversion H; subst; clear H. cbn in Hl.
      destruct (decide (x1 = k)) as [-> | Hne].
      * now rewrite lookup_delete_eq in Hl.
      * now rewrite lookup_delete_ne in Hl.
    + now inversion H; subst.
  - now inversion H; subst.
Qed.

Lemma run_notifications_source msgs : forall self self' k v,
  run_notifications self msgs = Ok self' ->
  document_versions self' !! k = Some v ->
  document_versions self !! k = Some v \/
  Exists (fun msg => carries msg k v) msgs.
Proof.
  induction msgs as [ | [method params] rest IH]; intros self self' k v H Hl.
  - inversion H; subst. now left.
  - cbn [run_notifications] in H. inv_bind H.
    destruct (IH _ _ _ _ H Hl) as [Hm | Hex].
    + destruct (on_client_notification_source _ _ _ _ _ _ Hx Hm) as [H0 | Hc].
      * now left.
      * right. now apply Exists_cons_hd.
    + right. now apply Exists_cons_tl.
Qed.

(** C9, as the code has it.  Whatever the client's notifications are, a
    version held by the table after them is the [version] of the
    [textDocument] of one of the [didOpen] or [didChange] notifications for
    that document: the engine makes up no version.  The sign of a version
    is the client's. *)
Theorem versions_come_from_client (primary : addr)
  (msgs : list (string * pyval)) (self' : LspLogic) (k : hkey) (v : pyval) :
  run_notifications (LspLogic_init primary) msgs = Ok self' ->
  document_versions self' !! k = Some v ->
  Exists (fun msg => carries msg k v) msgs.
Proof.
  intros H Hl.
  destruct (run_notifications_source _ _ _ _ _ H Hl) as [H0 | Hex];
    [ | exact Hex].
  cbn in H0. now rewrite lookup_empty in H0.
Qed.

(** ** Equality of values *)

(** Induction with the hypotheses for the elements of a list and for the
    values of a dict. *)
Lemma pyval_ind (P : pyval -> Prop)
  (HNone : P PNone)
  (HBool : forall b, P (PBool b))
  (HInt : forall z, P (PInt z))
  (HStr : forall s, P (PStr s))
  (HList : forall l, Forall P l -> P (PList l))
  (HDict : forall d, Forall (fun kv => P (snd kv)) d -> P (PDict d)) :
  forall v, P v.
Proof.
  fix IH 1. intros [ | b | z | s | l | d].
  - exact HNone.
  - apply HBool.
  - apply HInt.
  - apply HStr.
  - apply HList. induction l as [ | x l IHl]; constructor; [apply IH | exact IHl].
  - apply HDict. induction d as [ | [k x] d IHd]; constructor; [apply IH | exact IHd].
Qed.

Lemma py_eq_list xs ys :
  py_eq (PList xs) (PList ys)
  = (fix all2 (xs ys : list pyval) {struct xs} : bool :=
       match xs, ys with
       | [], [] => true
       | x :: xs', y :: ys' => py_eq x y && all2 xs' ys'
       | _, _ => false
       end) xs ys.
Proof. reflexivity. Qed.

Lemma py_eq_dict d1 d2 :
  py_eq (PDict d1) (PDict d2)
  = (length d1 =? length d2)%nat &&
    forallb (fun kv => match dict_get (fst kv) d2 with
                       | Some v' => py_eq (snd kv) v'
                       | None => false
                       end) d1.
Proof.
  cbn [py_eq]. f_equal.
  induction d1 as [ | [k v] d1 IH]; [reflexivity | ].
  cbn [forallb fst snd]. now rewrite <- IH.
Qed.

Lemma dict_get_In_unique {V} (d : list (string * V)) k v :
  keys_unique d = true -> In (k, v) d -> dict_get k d = Some v.
Proof.
  induction d as [ | [k0 v0] d IH]; intros Hu Hin; [destruct Hin | ].
  cbn [keys_unique] in Hu. apply andb_prop in Hu as [Hk0 Hu].
  cbn [dict_get]. destruct Hin as [Heq | Hin].
  - inversion Heq; subst. now rewrite String.eqb_refl.
  - destruct (String.eqb_spec k k0) as [-> | _]; [ | auto].
    unfold dict_has in Hk0. rewrite (IH Hu Hin) in Hk0. discriminate.
Qed.

(** [==] holds between a value and itself. *)
Lemma py_eq_refl v : wf_pyval v = true -> py_eq v v = true.
Proof.
  induction v as [ | b | z | s | l IH | d IH] using pyval_ind; intros Hwf.
  - reflexivity.
  - now destruct b.
  - apply Z.eqb_refl.
  - apply String.eqb_refl.
  - rewrite py_eq_list. cbn [wf_pyval] in Hwf.
    induction l as [ | x l IHl]; [reflexivity | ].
    cbn [forallb] in Hwf. apply andb_prop in Hwf as [Hx Hl].
    inversion IH; subst. rewrite H1 by exact Hx. cbn [andb]. auto.
  - rewrite py_eq_dict, Nat.eqb_refl. cbn [andb].
    cbn [wf_pyval] in Hwf. apply andb_prop in Hwf as [Hu Hwf].
    apply forallb_forall. intros [k v] Hin. cbn [fst snd].
    rewrite (dict_get_In_unique d k v Hu Hin).
    rewrite List.Forall_forall in IH. apply (IH (k, v) Hin).
    rewrite forallb_forall in Hwf. apply (Hwf (k, v) Hin).
Qed.

Lemma Server_eq_refl s : wf_Server s = true -> Server_eq s s = true.
Proof.
  unfold wf_Server, Server_eq. intros H.
  apply andb_prop in H as [H Hc]. apply andb_prop in H as [Hn Hk].
  now rewrite !py_eq_refl.
Qed.

(** ** The merge of initialize replies *)

Lemma merge_cap_dict r item : exists r', merge_cap (PDict r) item = Ok (PDict r').
Proof.
  destruct item as [cap newval]. unfold merge_cap.
  cbn [py_get mbind result_bind py_setitem].
  repeat match goal with
  | |- context [if ?b then _ else _] => destruct b
  | |- context [match ?v with PNone => _ | _ => _ end] => destruct v
  end; eauto.
Qed.

Lemma merge_caps_dict items : forall r,
  exists r', merge_caps (PDict r) items = Ok (PDict r').
Proof.
  induction items as [ | item rest IH]; intros r; cbn [merge_caps]; [eauto | ].
  destruct (merge_cap_dict r item) as [r1 ->]. apply IH.
Qed.

Lemma merge_field_text a ci si primary field sep cur new :
  default (PDict []) (dict_get "serverInfo" a) = PDict ci ->
  default (PStr "") (dict_get field ci) = PStr cur ->
  default (PStr "") (dict_get field si) = PStr new ->
  merge_field (PDict a) (PDict si) primary field sep
  = Ok (PStr (merged_text primary sep cur new)).
Proof.
  intros Ha Hc Hn. unfold merge_field.
  cbn [py_get mbind result_bind]. rewrite Ha.
  cbn [py_get mbind result_bind]. rewrite Hc, Hn.
  unfold merged_text, py_or, truthy.
  destruct (String.eqb_spec cur "") as [-> | _],
    (String.eqb_spec new "") as [-> | _], primary; reflexivity.
Qed.

(** The merge of [serverInfo], with the test the code makes.  For [name]
    and for [version], each on its own: with the aggregate's text or the
    new reply's text empty, the merged text is the one that is not;
    otherwise it is both texts around the separator of the field ("+" for
    [name], "," for [version]), the new reply's first exactly when the
    source compares equal to the primary server. *)
Lemma serverInfo_fields_merge (self : LspLogic) (h : store)
  (a p ca cp ci si : pydict) (source : addr)
  (cur_name new_name cur_version new_version : string) :
  default (PDict []) (dict_get "capabilities" a) = PDict ca ->
  default (PDict []) (dict_get "capabilities" p) = PDict cp ->
  default (PDict []) (dict_get "serverInfo" a) = PDict ci ->
  dict_get "serverInfo" p = Some (PDict si) ->
  si <> [] ->
  default (PStr "") (dict_get "name" ci) = PStr cur_name ->
  default (PStr "") (dict_get "name" si) = PStr new_name ->
  default (PStr "") (dict_get "version" ci) = PStr cur_version ->
  default (PStr "") (dict_get "version" si) = PStr new_version ->
  let from_primary := Server_eq (h source) (h (primary_server self)) in
  exists a',
    _merge_initialize_payloads self h (PDict a) (PDict p) source
    = Ok (PDict a') /\
    dict_get "serverInfo" a'
    = Some (PDict
        [("name", PStr (merged_text from_primary "+" cur_name new_name));
         ("version",
          PStr (merged_text from_primary "," cur_version new_version))]).
Proof.
  intros Hca Hcp Hci Hsi Hne Hcn Hnn Hcv Hnv from_primary.
  unfold _merge_initialize_payloads.
  cbn [py_get mbind result_bind]. rewrite Hca, Hcp.
  cbn [py_items mbind result_bind].
  destruct (merge_caps_dict cp ca) as [r' ->].
  cbn [py_setitem mbind result_bind]. rewrite Hsi.
  cbn [default from_option id].
  replace (truthy (PDict si)) with true by (destruct si; [congruence | reflexivity]).
  assert (Hci' : default (PDict []) (dict_get "serverInfo"
                   (dict_set "capabilities" (PDict r') a)) = PDict ci).
  { rewrite dict_get_set_ne by discriminate. exact Hci. }
  rewrite (merge_field_text _ ci si _ "name" "+" cur_name new_name Hci' Hcn Hnn).
  rewrite (merge_field_text _ ci si _ "version" "," cur_version new_version
             Hci' Hcv Hnv).
  cbn [mbind result_bind]. eexists. split; [reflexivity | ].
  apply dict_get_set_eq.
Qed.

(** The reply of the primary server itself goes first. *)
Lemma primary_reply_goes_first (self : LspLogic) (h : store)
  (a p ca cp ci si : pydict)
  (cur_name new_name cur_version new_version : string) :
  wf_Server (h (primary_server self)) = true ->
  default (PDict []) (dict_get "capabilities" a) = PDict ca ->
  default (PDict []) (dict_get "capabilities" p) = PDict cp ->
  default (PDict []) (dict_get "serverInfo" a) = PDict ci ->
  dict_get "serverInfo" p = Some (PDict si) ->
  si <> [] ->
  default (PStr "") (dict_get "name" ci) = PStr cur_name ->
  default (PStr "") (dict_get "name" si) = PStr new_name ->
  default (PStr "") (dict_get "version" ci) = PStr cur_version ->
  default (PStr "") (dict_get "version" si) = PStr new_version ->
  exists a',
    _merge_initialize_payloads self h (PDict a) (PDict p) (primary_server self)
    = Ok (PDict a') /\
    dict_get "serverInfo" a'
    = Some (PDict
        [("name", PStr (merged_text true "+" cur_name new_name));
         ("version", PStr (merged_text true "," cur_version new_version))]).
Proof.
  intros Hwf Hca Hcp Hci Hsi Hne Hcn Hnn Hcv Hnv.
  pose proof (serverInfo_fields_merge self h a p ca cp ci si
                (primary_server self) cur_name new_name cur_version
                new_version Hca Hcp Hci Hsi Hne Hcn Hnn Hcv Hnv) as H.
  cbn zeta in H. now rewrite (Server_eq_refl _ Hwf) in H.
Qed.

(** The reply of a server whose fields differ from the primary's goes
    last. *)
Lemma differing_reply_goes_last (self : LspLogic) (h : store)
  (a p ca cp ci si : pydict) (source : addr)
  (cur_name new_name cur_version new_version : string) :
  Server_eq (h source) (h (primary_server self)) = false ->
  default (PDict []) (dict_get "capabilities" a) = PDict ca ->
  default (PDict []) (dict_get "capabilities" p) = PDict cp ->
  default (PDict []) (dict_get "serverInfo" a) = PDict ci ->
  dict_get "serverInfo" p = Some (PDict si) ->
  si <> [] ->
  default (PStr "") (dict_get "name" ci) = PStr cur_name ->
  default (PStr "") (dict_get "name" si) = PStr new_name ->
  default (PStr "") (dict_get "version" ci) = PStr cur_version ->
  default (PStr "") (dict_get "version" si) = PStr new_version ->
  exists a',
    _merge_initialize_payloads self h (PDict a) (PDict p) source
    = Ok (PDict a') /\
    dict_get "serverInfo" a'
    = Some (PDict
        [("name", PStr (merged_text false "+" cur_name new_name));
         ("version", PStr (merged_text false "," cur_version new_version))]).
Proof.
  intros Hneq Hca Hcp Hci Hsi Hne Hcn Hnn Hcv Hnv.
  pose proof (serverInfo_fields_merge self h a p ca cp ci si source
                cur_name new_name cur_version new_version
                Hca Hcp Hci Hsi Hne Hcn Hnn Hcv Hnv) as H.
  cbn zeta in H. now rewrite Hneq in H.
Qed.

(** The generated equality does not tell two objects with the same fields
    apart. *)
Lemma Server_eq_same_fields (h : store) (a b : addr) :
  wf_Server (h a) = true -> h a = h b -> Server_eq (h a) (h b) = true.
Proof. intros Hwf <-. now apply Server_eq_refl. Qed.

(** ** Full sync in the capability loop *)

Lemma dmerge_fold d2 : forall d1, dmerge d1 d2 = fold_left dmerge_step d2 d1.
Proof.
  unfold dmerge. cbn [dmerge_rec].
  induction d2 as [ | [key value] d2 IH]; intros d1; [reflexivity | ].
  cbn [fold_left]. rewrite <- IH. f_equal.
  unfold dmerge_step, dmerge.
  destruct (dict_get key d1) as [v1 | ]; [ | reflexivity].
  destruct v1, value; reflexivity.
Qed.

Lemma dmerge_step_scalar_kept result key value k v1 :
  dict_get k result = Some v1 ->
  is_scalar v1 = true ->
  (key = k -> is_scalar value = true) ->
  dict_get k (dmerge_step result (key, value)) = Some v1.
Proof.
  intros Hg Hs Hv. unfold dmerge_step.
  destruct (String.eqb_spec key k) as [-> | Hne].
  - rewrite Hg, Hs, (Hv eq_refl).
    destruct v1; try discriminate; destruct value; try discriminate; exact Hg.
  - destruct (dict_get key result) as [w | ];
      [ | now rewrite dict_get_set_ne].
    destruct w, value; cbn;
      repeat match goal with
      | |- context [if ?b then _ else _] => destruct b
      end;
      rewrite ?dict_get_set_ne by exact Hne; exact Hg.
Qed.

Lemma dmerge_scalar_kept d2 : forall d1 k v1,
  dict_get k d1 = Some v1 ->
  is_scalar v1 = true ->
  (forall value, In (k, value) d2 -> is_scalar value = true) ->
  dict_get k (dmerge d1 d2) = Some v1.
Proof.
  intros d1 k v1 Hg Hs Hall. rewrite dmerge_fold. revert d1 Hg.
  induction d2 as [ | [key value] d2 IH]; intros d1 Hg; [exact Hg | ].
  cbn [fold_left]. apply IH.
  - intros w Hin. apply Hall. now right.
  - apply dmerge_step_scalar_kept; auto.
    intros ->. apply Hall. now left.
Qed.

Lemma py_eq_int_scalar v z : py_eq v (PInt z) = true -> is_scalar v = true.
Proof. destruct v; (discriminate || reflexivity). Qed.

Lemma merge_cap_other r cap newval k r' :
  cap <> k ->
  merge_cap (PDict r) (cap, newval) = Ok (PDict r') ->
  dict_get k r' = dict_get k r.
Proof.
  intros Hne. unfold merge_cap. cbn [py_get mbind result_bind py_setitem].
  repeat match goal with
  | |- context [if ?b then _ else _] => destruct b
  | |- context [match ?v with PNone => _ | _ => _ end] => destruct v
  end;
  intros H; inversion H; subst; rewrite ?dict_get_set_ne by exact Hne;
  reflexivity.
Qed.

Lemma dict_has_cons {V} k k0 (v0 : V) d :
  dict_has k ((k0, v0) :: d) = false -> k0 <> k /\ dict_has k d = false.
Proof.
  unfold dict_has. cbn [dict_get].
  destruct (String.eqb_spec k k0) as [-> | Hne]; [discriminate | auto].
Qed.

Lemma merge_caps_other items : forall r r' k,
  dict_has k items = false ->
  merge_caps (PDict r) items = Ok (PDict r') ->
  dict_get k r' = dict_get k r.
Proof.
  induction items as [ | [cap newval] rest IH]; intros r r' k Hk H.
  - now inversion H.
  - apply dict_has_cons in Hk as [Hne Hk]. cbn [merge_caps] in H.
    destruct (merge_cap_dict r (cap, newval)) as [r1 H1]. rewrite H1 in H.
    cbn [mbind result_bind] in H.
    rewrite (IH _ _ _ Hk H). eapply merge_cap_other; eauto.
Qed.

Lemma merge_cap_full_sync r v :
  t1sync v = true ->
  merge_cap (PDict r) ("textDocumentSync", v)
  = Ok (PDict (dict_set "textDocumentSync" v r)).
Proof.
  intros Hv. unfold merge_cap. cbn [py_get mbind result_bind py_setitem].
  rewrite Hv. now destruct (is_none _).
Qed.

(** The direction the loop provides for: a reply that announces full sync
    has its value adopted, whatever the aggregate held. *)
Lemma full_sync_reply_adopted items : forall r v,
  keys_unique items = true ->
  dict_get "textDocumentSync" items = Some v ->
  t1sync v = true ->
  exists r', merge_caps (PDict r) items = Ok (PDict r') /\
             dict_get "textDocumentSync" r' = Some v.
Proof.
  induction items as [ | [cap newval] rest IH]; intros r v Hu Hg Hv;
    [discriminate | ].
  cbn [keys_unique] in Hu. apply andb_prop in Hu as [Hfresh Hu].
  apply negb_true_iff in Hfresh.
  cbn [dict_get] in Hg. cbn [merge_caps].
  destruct (String.eqb_spec "textDocumentSync" cap) as [<- | Hne].
  - inversion Hg; subst. rewrite (merge_cap_full_sync r v Hv).
    cbn [mbind result_bind].
    destruct (merge_caps_dict rest (dict_set "textDocumentSync" v r))
      as [r' Hr'].
    exists r'. split; [exact Hr' | ].
    rewrite (merge_caps_other _ _ _ _ Hfresh Hr'). apply dict_get_set_eq.
  - destruct (merge_cap_dict r (cap, newval)) as [r1 ->].
    cbn [mbind result_bind]. now apply IH.
Qed.

Lemma incremental_options_change b :
  incremental_sync (PDict b) = true ->
  dict_get "change" b = Some (PInt 2).
Proof.
  unfold incremental_sync. cbn [py_eq orb].
  destruct (dict_get "change" b) as [c | ]; [ | discriminate].
  destruct c as [ | [ | ] | z | | | ]; try discriminate.
  cbn. intros H. apply Z.eqb_eq in H. now subst.
Qed.

Lemma merge_cap_full_sync_kept r cur newval :
  dict_get "textDocumentSync" r = Some cur ->
  t1sync cur = true ->
  incremental_sync newval = true ->
  wf_pyval newval = true ->
  is_scalar cur = false \/ is_scalar newval = true ->
  exists r' cur',
    merge_cap (PDict r) ("textDocumentSync", newval) = Ok (PDict r') /\
    dict_get "textDocumentSync" r' = Some cur' /\
    t1sync cur' = true.
Proof.
  intros Hg Hcur Hinc Hwf Hshape.
  destruct (t1sync newval) eqn:Hnew.
  { rewrite (merge_cap_full_sync r newval Hnew).
    eexists _, newval. split; [reflexivity | ].
    split; [apply dict_get_set_eq | exact Hnew]. }
  unfold merge_cap. cbn [py_get mbind result_bind py_setitem].
  rewrite Hg, Hnew. cbn [default from_option id].
  assert (Hnn : is_none cur = false) by (now destruct cur).
  rewrite Hnn, !andb_false_r.
  replace (is_scalar cur && negb (is_scalar newval)) with false.
  2:{ destruct Hshape as [-> | ->]; [reflexivity | now rewrite andb_false_r]. }
  destruct cur as [ | | | | | a];
    try solve [eexists _, _; split; [reflexivity | split; [exact Hg | exact Hcur]]].
  destruct newval as [ | | | | | b];
    try solve [eexists _, _; split; [reflexivity | split; [exact Hg | exact Hcur]]].
  cbn [String.eqb Ascii.eqb Bool.eqb negb].
  eexists _, _. split; [reflexivity | ].
  split; [apply dict_get_set_eq | ].
  unfold t1sync in Hcur |- *. cbn [py_eq orb] in Hcur |- *.
  destruct (dict_get "change" a) as [c | ] eqn:Hc; [ | discriminate].
  cbn [default from_option id] in Hcur.
  cbn [wf_pyval] in Hwf. apply andb_prop in Hwf as [Hu _].
  rewrite (dmerge_scalar_kept b a "change" c Hc (py_eq_int_scalar _ _ Hcur)).
  - exact Hcur.
  - intros value Hin.
    pose proof (dict_get_In_unique b "change" value Hu Hin) as Hget.
    rewrite (incremental_options_change b Hinc) in Hget.
    now inversion Hget.
Qed.

(** The other direction, where the loop has no rule of its own: an
    aggregate that announces full sync keeps announcing it when a later
    reply announces incremental sync, unless the aggregate's value is a
    bare kind and the reply's an options object. *)
Lemma full_sync_kept items : forall r cur newval,
  dict_get "textDocumentSync" r = Some cur ->
  t1sync cur = true ->
  keys_unique items = true ->
  dict_get "textDocumentSync" items = Some newval ->
  incremental_sync newval = true ->
  wf_pyval newval = true ->
  is_scalar cur = false \/ is_scalar newval = true ->
  exists r' cur',
    merge_caps (PDict r) items = Ok (PDict r') /\
    dict_get "textDocumentSync" r' = Some cur' /\
    t1sync cur' = true.
Proof.
  induction items as [ | [cap x] rest IH];
    intros r cur newval Hg Hcur Hu Hi Hinc Hwf Hshape; [discriminate | ].
  cbn [keys_unique] in Hu. apply andb_prop in Hu as [Hfresh Hu].
  apply negb_true_iff in Hfresh.
  cbn [dict_get] in Hi. cbn [merge_caps].
  destruct (String.eqb_spec "textDocumentSync" cap) as [<- | Hne].
  - inversion Hi; subst.
    destruct (merge_cap_full_sync_kept r cur newval Hg Hcur Hinc Hwf Hshape)
      as (r1 & cur' & -> & Hg1 & Hfull).
    cbn [mbind result_bind].
    destruct (merge_caps_dict rest r1) as [r' Hr'].
    exists r', cur'. split; [exact Hr' | ].
    rewrite (merge_caps_other _ _ _ _ Hfresh Hr'). auto.
  - destruct (merge_cap_dict r (cap, x)) as [r1 H1]. rewrite H1.
    cbn [mbind result_bind].
    apply (IH r1 cur newval); auto.
    rewrite (merge_cap_other _ _ _ _ _ (not_eq_sym Hne) H1). exact Hg.
Qed.

(** C1, on the input where the code goes wrong.  The aggregate announces
    full sync by the bare kind 1 and a later reply announces incremental
    sync by an options object: the rule "a structured value replaces a
    scalar" fires, and the aggregate ends up announcing incremental sync. *)
Theorem full_sync_replaced_by_incremental_options (self : LspLogic)
  (h : store) (source : addr) :
  let full := PInt 1 in
  let incremental := PDict [("change", PInt 2)] in
  t1sync full = true /\
  incremental_sync incremental = true /\
  t1sync incremental = false /\
  _merge_initialize_payloads self h
    (PDict [("capabilities", PDict [("textDocumentSync", full)])])
    (PDict [("capabilities", PDict [("textDocumentSync", incremental)])])
    source
  = Ok (PDict [("capabilities", PDict [("textDocumentSync", incremental)])]).
Proof. repeat split. Qed.

(** ** The properties at sample inputs *)

Lemma stash_then_resolve_round_trip_witness :
  dict_get "data" action_item = Some (PDict [("id", PInt 7)]) /\
  exists self1 token,
    _stash_data_maybe (LspLogic_init 0) (PDict action_item) 1
    = Ok (self1, PDict (dict_set "data" (PStr token) action_item)) /\
    token = cookie_id (S (_data_cookie_counter (LspLogic_init 0))) /\
    forall self2 h method p servers,
      rtc step self1 self2 ->
      endswith method "resolve" = true ->
      dict_get "data" p = Some (PStr token) ->
      servers_to_route_to self2 h method (PDict p) servers
      = Ok (PDict (dict_set "data" (PDict [("id", PInt 7)]) p), [1]).
Proof.
  split; [reflexivity | ].
  apply (stash_then_resolve_round_trip (LspLogic_init 0) action_item
           (PDict [("id", PInt 7)]) 1).
  reflexivity.
Defined.

Lemma stale_diagnostics_dropped_witness :
  get_notif_aggregation_key tracking_engine (Some diagnostics_method)
    (PDict [("uri", PStr "file:///a.py"); ("version", PInt 2);
            ("diagnostics", PList [])])
  = Ok (Some [PStr "drop"]).
Proof.
  apply (stale_diagnostics_dropped tracking_engine _ (HStr "file:///a.py")
           (PInt 2) (PInt 3)); reflexivity.
Defined.

Lemma unknown_token_default_route_witness :
  servers_to_route_to (LspLogic_init 0) two_servers "codeAction/resolve"
    (PDict [("title", PStr "x"); ("data", PStr "rassumfrassum-9")]) [0; 1]
  = Ok (PDict [("title", PStr "x"); ("data", PStr "rassumfrassum-9")], [0]).
Proof.
  apply (unknown_token_default_route (LspLogic_init 0) two_servers
           "codeAction/resolve" _ "rassumfrassum-9" [0; 1]); reflexivity.
Defined.

Lemma unversioned_diagnostics_key_witness :
  get_notif_aggregation_key tracking_engine (Some diagnostics_method)
    (PDict [("uri", PStr "file:///a.py"); ("diagnostics", PList [])])
  = Ok (Some [PStr "notification"; PStr diagnostics_method;
              PStr "file:///a.py"; PInt 3]).
Proof.
  apply (unversioned_diagnostics_key tracking_engine
           [("uri", PStr "file:///a.py"); ("diagnostics", PList [])]
           (HStr "file:///a.py")); [reflexivity | reflexivity | ].
  intros t Ht. vm_compute in Ht. inversion Ht. now exists 3%Z.
Defined.

Lemma serverInfo_fields_merge_witness :
  exists a',
    _merge_initialize_payloads (LspLogic_init 0) two_servers
      (PDict first_reply) (PDict second_reply) 1
    = Ok (PDict a') /\
    dict_get "serverInfo" a'
    = Some (PDict [("name", PStr "pylsp+ruff"); ("version", PStr "1.0,0.4")]).
Proof.
  apply (serverInfo_fields_merge (LspLogic_init 0) two_servers
           first_reply second_reply
           [("textDocumentSync", PInt 1)]
           [("textDocumentSync",
             PDict [("openClose", PBool true); ("change", PInt 2)])]
           [("name", PStr "pylsp"); ("version", PStr "1.0")]
           [("name", PStr "ruff"); ("version", PStr "0.4")]
           1 "pylsp" "ruff" "1.0" "0.4");
    solve [reflexivity | discriminate].
Defined.

Lemma versions_come_from_client_witness :
  Exists (fun msg => carries msg (HStr "file:///a.py") (PInt (-1)))
    [open_negative].
Proof.
  apply (versions_come_from_client 0 [open_negative]
           (mkLspLogic 0 (<[HStr "file:///a.py" := PInt (-1)]> ∅) ∅ 0)
           (HStr "file:///a.py") (PInt (-1))); reflexivity.
Defined.

Lemma route_outside_candidates_witness :
  (exists r, servers_to_route_to (LspLogic_init 0) two_servers
               "textDocument/hover" (PDict []) [1; 2]
             = Ok (PDict [], [r]) /\
             r = 0 /\ r ∉ [1; 2]) /\
  (exists r p', servers_to_route_to cookie_engine two_servers
                  "codeAction/resolve"
                  (PDict [("data", PStr "rassumfrassum-1")]) [0; 1]
                = Ok (p', [r]) /\
                r = 5 /\ r ∉ [0; 1]).
Proof.
  assert (Hout : forall (r a b : addr), r <> a -> r <> b -> r ∉ [a; b]).
  { intros r a b Ha Hb H. apply list_elem_of_In in H. cbn in H. intuition. }
  split.
  - apply (proj1 (route_outside_candidates (LspLogic_init 0) two_servers
                    "textDocument/hover" [] [1; 2] ltac:(discriminate)));
      [reflexivity | reflexivity | ].
    apply Hout; discriminate.
  - apply (proj2 (route_outside_candidates cookie_engine two_servers
                    "codeAction/resolve"
                    [("data", PStr "rassumfrassum-1")] [0; 1]
                    ltac:(discriminate))
             (mkDataCookie (PInt 7) 5));
      [reflexivity | ].
    apply Hout; discriminate.
Defined.

(** ** Where the specification and the code part *)

(** C8, on the input where the code goes wrong.  The server at address 1
    is another object than the primary at address 0, with the same fields.
    The test [source == self.primary_server], which the code comments as
    "Determine if this response is from primary", is the equality that
    [@dataclass] generates: it holds for the server 1, and the reply of the
    server 1 is merged in the primary's position. *)
Lemma distinct_server_taken_for_primary :
  Server_is 1 (primary_server (LspLogic_init 0)) = false /\
  Server_eq (twin_servers 1) (twin_servers (primary_server (LspLogic_init 0)))
  = true /\
  _merge_initialize_payloads (LspLogic_init 0) twin_servers
    (PDict first_reply) (PDict second_reply) 1
  = Ok (PDict
      [("capabilities",
        PDict [("textDocumentSync",
                PDict [("openClose", PBool true); ("change", PInt 2)])]);
       ("serverInfo",
        PDict [("name", PStr "ruff+pylsp"); ("version", PStr "0.4,1.0")])]).
Proof. repeat split. Qed.

(** C7, on the input where the code goes wrong.  The reply merged is the
    server 1's and the primary is the server 0.  With fields that differ
    from the primary's the reply's texts go after the aggregate's, as the
    claim says; with the fields of the primary they go before, though the
    reply is not the primary's. *)
Theorem twin_reply_placed_before_aggregate :
  Server_is 1 (primary_server (LspLogic_init 0)) = false /\
  (exists a',
     _merge_initialize_payloads (LspLogic_init 0) two_servers
       (PDict first_reply) (PDict second_reply) 1 = Ok (PDict a') /\
     dict_get "serverInfo" a'
     = Some (PDict [("name", PStr "pylsp+ruff");
                    ("version", PStr "1.0,0.4")])) /\
  (exists a',
     _merge_initialize_payloads (LspLogic_init 0) twin_servers
       (PDict first_reply) (PDict second_reply) 1 = Ok (PDict a') /\
     dict_get "serverInfo" a'
     = Some (PDict [("name", PStr "ruff+pylsp");
                    ("version", PStr "0.4,1.0")])).
Proof.
  split; [reflexivity | ].
  split; eexists; (split; [reflexivity | reflexivity]).
Qed.

(** C9 as written fails: a [didOpen] with the version -1 leaves -1 in the
    table. *)
Lemma negative_version_is_stored :
  exists self',
    run_notifications (LspLogic_init 0) [open_negative] = Ok self' /\
    document_versions self' !! HStr "file:///a.py" = Some (PInt (-1)) /\
    ~ (exists z, PInt (-1) = PInt z /\ (0 <= z)%Z).
Proof.
  eexists. split; [reflexivity | ]. split; [reflexivity | ].
  intros [z [Hz Hpos]]. inversion Hz. lia.
Qed.

(** ** The engine on sample messages *)

Example route_initialize_to_all :
  servers_to_route_to (LspLogic_init 0) two_servers "initialize" (PDict [])
    [0; 1]
  = Ok (PDict [], [0; 1]).
Proof. reflexivity. Qed.

Example route_code_action_to_providers :
  servers_to_route_to (LspLogic_init 0) two_servers "textDocument/codeAction"
    (PDict []) [0; 1]
  = Ok (PDict [], [1]).
Proof. reflexivity. Qed.

Example route_rename_to_first_provider :
  servers_to_route_to (LspLogic_init 0) two_servers "textDocument/rename"
    (PDict []) [1; 0]
  = Ok (PDict [], [0]).
Proof. reflexivity. Qed.

Example route_formatting_to_nobody :
  servers_to_route_to (LspLogic_init 0) two_servers "textDocument/formatting"
    (PDict []) [0; 1]
  = Ok (PDict [], []).
Proof. reflexivity. Qed.

Example route_resolve_with_list_params_raises :
  servers_to_route_to (LspLogic_init 0) two_servers "codeAction/resolve"
    (PList [PInt 1]) [0; 1]
  = Raise AttributeError.
Proof. reflexivity. Qed.

Example aggregate_diagnostics_tags_source :
  aggregate_payloads (LspLogic_init 0) two_servers diagnostics_method
    (PDict [("uri", PStr "file:///a.py");
            ("diagnostics", PList [PDict [("message", PStr "E1");
                                          ("source", PStr "pylsp")]])])
    (PDict [("uri", PStr "file:///a.py");
            ("diagnostics", PList [PDict [("message", PStr "E2")]])])
    1 false
  = Ok (mkAggregated
          (PDict [("uri", PStr "file:///a.py");
                  ("diagnostics",
                   PList [PDict [("message", PStr "E1"); ("source", PStr "pylsp")];
                          PDict [("message", PStr "E2"); ("source", PStr "ruff")]])])
          (PDict [("uri", PStr "file:///a.py");
                  ("diagnostics",
                   PList [PDict [("message", PStr "E1"); ("source", PStr "pylsp")];
                          PDict [("message", PStr "E2"); ("source", PStr "ruff")]])])
          (PDict [("uri", PStr "file:///a.py");
                  ("diagnostics",
                   PList [PDict [("message", PStr "E2");
                                 ("source", PStr "ruff")]])])).
Proof. reflexivity. Qed.

Example aggregate_code_actions_concatenates :
  aggregate_payloads (LspLogic_init 0) two_servers "textDocument/codeAction"
    PNone (PList [PDict action_item]) 1 false
  = Ok (mkAggregated (PList [PDict action_item]) PNone
          (PList [PDict action_item])).
Proof. reflexivity. Qed.

Example dmerge_sample :
  dmerge [("a", PInt 1); ("l", PList [PInt 1]); ("o", PDict [("x", PInt 1)]);
          ("s", PBool true)]
         [("a", PInt 2); ("l", PList [PInt 2]); ("o", PDict [("y", PInt 2)]);
          ("s", PDict [("w", PBool true)]); ("n", PNone)]
  = [("a", PInt 1); ("l", PList [PInt 1; PInt 2]);
     ("o", PDict [("x", PInt 1); ("y", PInt 2)]);
     ("s", PDict [("w", PBool true)]); ("n", PNone)].
Proof. reflexivity. Qed.

Example full_sync_wins_when_second :
  _merge_initialize_payloads (LspLogic_init 0) two_servers
    (PDict [("capabilities", PDict [("textDocumentSync", PInt 2)])])
    (PDict [("capabilities", PDict [("textDocumentSync", PInt 1)])]) 1
  = Ok (PDict [("capabilities", PDict [("textDocumentSync", PInt 1)])]).
Proof. reflexivity. Qed.

(** * Further properties *)

(** ** Routing, rule by rule *)

Lemma all_with_cap_filter h cap servers :
  caps_are_dicts h servers ->
  all_with_cap h cap servers = Ok (List.filter (has_cap h cap) servers).
Proof.
  induction 1 as [ | s rest [d Hd] _ IH]; [reflexivity | ].
  cbn [all_with_cap List.filter]. unfold has_cap at 1. rewrite Hd, IH.
  cbn [py_get mbind result_bind]. now destruct (truthy _).
Qed.

Lemma first_with_cap_find h cap servers :
  caps_are_dicts h servers ->
  first_with_cap h cap servers
  = Ok (match List.find (has_cap h cap) servers with
        | Some s => [s]
        | None => []
        end).
Proof.
  induction 1 as [ | s rest [d Hd] _ IH]; [reflexivity | ].
  cbn [first_with_cap List.find]. unfold has_cap at 1. rewrite Hd.
  cbn [py_get mbind result_bind]. now destruct (truthy _).
Qed.

(** The value of [data] that rule 1 looks at is [None] for a method that
    does not end in "resolve". *)
Lemma no_resolve_no_data method (params : pyval) :
  endswith method "resolve" = false ->
  (if truthy params && endswith method "resolve"
   then py_get "data" PNone params else Ok PNone) = Ok PNone.
Proof. intros ->. now rewrite andb_false_r. Qed.

(** X1. The session handshake and its end go to every candidate: for
    [initialize] and [shutdown] the list returned is the candidate list
    itself and [params] is not touched, whatever [params] is. *)
Theorem route_broadcast (self : LspLogic) (h : store) (method : string)
  (params : pyval) (servers : list addr) :
  method = "initialize" \/ method = "shutdown" ->
  servers_to_route_to self h method params servers = Ok (params, servers).
Proof.
  intros [-> | ->]; unfold servers_to_route_to;
    rewrite no_resolve_no_data by reflexivity; reflexivity.
Qed.

(** X2. A code-action request goes to every candidate that announces
    [codeActionProvider] with a truthy value, in the order of the
    candidates, and to no other. *)
Theorem route_code_action_filter (self : LspLogic) (h : store)
  (params : pyval) (servers : list addr) :
  caps_are_dicts h servers ->
  servers_to_route_to self h "textDocument/codeAction" params servers
  = Ok (params, List.filter (has_cap h "codeActionProvider") servers).
Proof.
  intros Hc. unfold servers_to_route_to.
  rewrite no_resolve_no_data by reflexivity.
  cbn [mbind result_bind lookup_cookie String.eqb Ascii.eqb Bool.eqb orb].
  now rewrite (all_with_cap_filter _ _ _ Hc).
Qed.

(** X3. Rename and the two formatting requests go to one server at most:
    the first candidate that announces the capability of the method with a
    truthy value, and nobody when no candidate does. *)
Theorem route_single_target_first (self : LspLogic) (h : store)
  (method cap : string) (params : pyval) (servers : list addr) :
  dict_get method single_target_caps = Some cap ->
  caps_are_dicts h servers ->
  servers_to_route_to self h method params servers
  = Ok (params,
        match List.find (has_cap h cap) servers with
        | Some s => [s]
        | None => []
        end).
Proof.
  intros Hm Hc.
  assert (Hr : endswith method "resolve" = false).
  { destruct (endswith method "resolve") eqn:E; [ | reflexivity].
    apply endswith_resolve_unrouted in E. unfold routed_by_rule, dict_has in E.
    rewrite Hm in E. now rewrite orb_true_r in E. }
  assert (Hn : String.eqb method "initialize" || String.eqb method "shutdown"
               = false /\ String.eqb method "textDocument/codeAction" = false).
  { unfold single_target_caps, dict_get in Hm.
    repeat match type of Hm with
    | context [String.eqb method ?c] =>
        destruct (String.eqb_spec method c) as [-> | _]; [now split | ]
    end. discriminate. }
  destruct Hn as [Hn1 Hn2].
  unfold servers_to_route_to. rewrite (no_resolve_no_data _ _ Hr).
  cbn [mbind result_bind lookup_cookie]. rewrite Hn1, Hn2, Hm.
  now rewrite (first_with_cap_find _ _ _ Hc).
Qed.

Lemma all_with_cap_sub h cap servers : forall l,
  all_with_cap h cap servers = Ok l -> forall r, In r l -> In r servers.
Proof.
  induction servers as [ | s rest IH]; intros l H r Hr.
  - inversion H; subst. destruct Hr.
  - cbn [all_with_cap] in H. inv_bind H. inv_bind H.
    inversion H; subst; clear H.
    destruct (truthy x); [destruct Hr as [<- | Hr] | ];
      [now left | right; eauto | right; eauto].
Qed.

Lemma first_with_cap_sub h cap servers : forall l,
  first_with_cap h cap servers = Ok l -> forall r, In r l -> In r servers.
Proof.
  induction servers as [ | s rest IH]; intros l H r Hr.
  - inversion H; subst. destruct Hr.
  - cbn [first_with_cap] in H. inv_bind H. destruct (truthy x).
    + inversion H; subst. destruct Hr as [<- | []]. now left.
    + right. eauto.
Qed.

Lemma lookup_cookie_Some self d c :
  lookup_cookie self d = Some c ->
  exists id, d = PStr id /\ data_cookies self !! id = Some c.
Proof.
  unfold lookup_cookie. destruct d; try discriminate.
  destruct (startswith s "rassumfrassum-"); [eauto | discriminate].
Qed.

(** The shape of a call of the routing function that returns. *)
Lemma route_cases self h method params servers params' l :
  servers_to_route_to self h method params servers = Ok (params', l) ->
  (exists p c, params = PDict p /\ recovers self method p = Some c /\
               params' = PDict (dict_set "data" (data c) p) /\
               l = [server c]) \/
  (params' = params /\
   (l = servers \/
    (exists cap, all_with_cap h cap servers = Ok l) \/
    (exists cap, first_with_cap h cap servers = Ok l) \/
    l = match servers with [] => [] | _ :: _ => [primary_server self] end)).
Proof.
  unfold servers_to_route_to. intros H. inv_bind H.
  destruct (lookup_cookie self x) as [c | ] eqn:Hc.
  - left. inv_bind H. inversion H; subst; clear H.
    destruct params as [ | | | | | p]; try discriminate.
    inversion Hx0; subst; clear Hx0. exists p, c.
    destruct (truthy (PDict p) && endswith method "resolve") eqn:E.
    + apply andb_prop in E as [_ E]. inversion Hx; subst.
      unfold recovers. rewrite E. auto.
    + inversion Hx; subst. discriminate.
  - right.
    destruct (String.eqb method "initialize" || String.eqb method "shutdown").
    { inversion H; subst. auto. }
    destruct (String.eqb method "textDocument/codeAction").
    { inv_bind H. inversion H; subst. split; [reflexivity | ]. right. left.
      eauto. }
    destruct (dict_get method single_target_caps) as [cap | ].
    { inv_bind H. inversion H; subst. split; [reflexivity | ].
      right. right. left. eauto. }
    inversion H; subst. auto 6.
Qed.

(** X4. Who can be returned.  Every server in the list the routing returns
    is one of the candidates, or the engine's primary server, or the server
    recorded with a cookie of the table. *)
Theorem route_returns_known_servers (self : LspLogic) (h : store)
  (method : string) (params params' : pyval) (servers l : list addr)
  (r : addr) :
  servers_to_route_to self h method params servers = Ok (params', l) ->
  In r l ->
  In r servers \/ r = primary_server self \/
  exists id c, data_cookies self !! id = Some c /\ server c = r.
Proof.
  intros H Hr. apply route_cases in H as [(p & c & -> & Hrec & -> & ->) | [_ H]].
  - right. right. destruct Hr as [<- | []].
    unfold recovers in Hrec. destruct (endswith method "resolve");
      [ | discriminate].
    apply lookup_cookie_Some in Hrec as (id & _ & Hid). eauto.
  - destruct H as [-> | [[cap H] | [[cap H] | ->]]].
    + now left.
    + left. eapply all_with_cap_sub; eauto.
    + left. eapply first_with_cap_sub; eauto.
    + right. left. destruct servers; [destruct Hr | ].
      now destruct Hr as [<- | []].
Qed.

(** X5. The only rewriting of [params] is the recovery of a cookie: a call
    that returns leaves [params] as it was, unless [params] is an object
    whose [data] is a token of the table, in which case only [data] is
    replaced, by the stashed value, and the cookie's server alone is
    returned. *)
Theorem route_rewrites_only_on_recovery (self : LspLogic) (h : store)
  (method : string) (params params' : pyval) (servers l : list addr) :
  servers_to_route_to self h method params servers = Ok (params', l) ->
  params' = params \/
  exists p c, params = PDict p /\ recovers self method p = Some c /\
              params' = PDict (dict_set "data" (data c) p) /\
              l = [server c].
Proof.
  intros H. apply route_cases in H as [H | [H _]]; [now right | now left].
Qed.

(** X6. Without candidates nobody is addressed: when no cookie is
    recovered, every method is routed to the empty list, the default rule's
    primary server included. *)
Theorem route_no_candidates (self : LspLogic) (h : store) (method : string)
  (p : pydict) :
  recovers self method p = None ->
  servers_to_route_to self h method (PDict p) [] = Ok (PDict p, []).
Proof.
  intros Hrec.
  destruct (servers_to_route_to self h method (PDict p) []) as [[p' l] | e]
    eqn:H.
  - apply route_cases in H as [(p0 & c & Heq & Hc & _) | [-> H]].
    + inversion Heq; subst. congruence.
    + destruct H as [-> | [[cap H] | [[cap H] | ->]]];
        try reflexivity; now inversion H.
  - exfalso. unfold servers_to_route_to in H.
    assert (Hd : (if truthy (PDict p) && endswith method "resolve"
                  then py_get "data" PNone (PDict p) else Ok PNone)
                 = Ok (if endswith method "resolve"
                       then default PNone (dict_get "data" p) else PNone)).
    { destruct p; destruct (endswith method "resolve"); reflexivity. }
    rewrite Hd in H. cbn [mbind result_bind] in H.
    replace (lookup_cookie self _) with (@None DataCookie) in H.
    2:{ unfold recovers in Hrec.
        destruct (endswith method "resolve"); [now rewrite Hrec | reflexivity]. }
    destruct (_ || _); [discriminate | ].
    destruct (String.eqb method "textDocument/codeAction"); [discriminate | ].
    destruct (dict_get method single_target_caps); discriminate.
Qed.

(** X7. Routing does not fail on well-shaped input: with [params] absent
    or an object, and the capabilities of every candidate an object, the
    call returns. *)
Theorem route_returns (self : LspLogic) (h : store) (method : string)
  (params : pyval) (servers : list addr) :
  params = PNone \/ is_dict params ->
  caps_are_dicts h servers ->
  exists params' l,
    servers_to_route_to self h method params servers = Ok (params', l).
Proof.
  intros Hp Hc.
  assert (Hrest : forall q : pyval, exists l,
    (if String.eqb method "initialize" || String.eqb method "shutdown"
     then Ok (q, servers)
     else if String.eqb method "textDocument/codeAction"
     then l ← all_with_cap h "codeActionProvider" servers; Ok (q, l)
     else
       match dict_get method single_target_caps with
       | Some cap => l ← first_with_cap h cap servers; Ok (q, l)
       | None =>
           Ok (q, match servers with
                  | [] => []
                  | _ :: _ => [primary_server self]
                  end)
       end) = Ok (q, l)).
  { intros q. destruct (_ || _); [eauto | ].
    destruct (String.eqb method "textDocument/codeAction").
    { rewrite (all_with_cap_filter _ _ _ Hc). eexists. reflexivity. }
    destruct (dict_get method single_target_caps) as [cap | ]; [ | eauto].
    rewrite (first_with_cap_find _ _ _ Hc). eexists. reflexivity. }
  unfold servers_to_route_to.
  destruct Hp as [-> | [p ->]].
  - cbn [truthy andb mbind result_bind lookup_cookie].
    destruct (Hrest PNone) as [l ->]. eauto.
  - destruct (truthy (PDict p) && endswith method "resolve");
      cbn [py_get mbind result_bind].
    + destruct (lookup_cookie self _) as [c | ].
      * eexists _, _. reflexivity.
      * destruct (Hrest (PDict p)) as [l ->]. eauto.
    + cbn [lookup_cookie]. destruct (Hrest (PDict p)) as [l ->]. eauto.
Qed.

(** X8. A resolve request whose [params] is neither absent, empty nor an
    object is refused with an [AttributeError]: the lookup of [data] needs
    the [get] method of a dict. *)
Theorem route_resolve_needs_object (self : LspLogic) (h : store)
  (method : string) (params : pyval) (servers : list addr) :
  endswith method "resolve" = true ->
  truthy params = true ->
  ~ is_dict params ->
  servers_to_route_to self h method params servers = Raise AttributeError.
Proof.
  intros Hm Ht Hnd. unfold servers_to_route_to. rewrite Hm, Ht.
  destruct params; try reflexivity. exfalso. apply Hnd. eexists; reflexivity.
Qed.

(** ** Document versions, message by message *)

Lemma record_version_insert self p td uri k v :
  dict_get "textDocument" p = Some (PDict td) ->
  dict_get "uri" td = Some uri ->
  uri <> PNone ->
  py_key uri = Ok k ->
  dict_get "version" td = Some v ->
  v <> PNone ->
  record_version self (PDict p)
  = Ok (set_document_versions self (<[k := v]> (document_versions self))).
Proof.
  intros Htd Hu Hun Hk Hv Hvn. unfold record_version.
  cbn [py_get mbind result_bind]. rewrite Htd.
  cbn [default from_option id py_get mbind result_bind]. rewrite Hu, Hv.
  cbn [default from_option id].
  replace (is_none uri) with false by (now destruct uri).
  replace (is_none v) with false by (now destruct v).
  cbn [negb andb]. now rewrite Hk.
Qed.

Lemma open_or_change_records self method p td uri k v :
  method = "textDocument/didOpen" \/ method = "textDocument/didChange" ->
  dict_get "textDocument" p = Some (PDict td) ->
  dict_get "uri" td = Some uri ->
  uri <> PNone ->
  py_key uri = Ok k ->
  dict_get "version" td = Some v ->
  v <> PNone ->
  on_client_notification self method (PDict p)
  = Ok (set_document_versions self (<[k := v]> (document_versions self))).
Proof.
  intros Hm Htd Hu Hun Hk Hv Hvn. unfold on_client_notification.
  destruct Hm as [-> | ->]; cbn [String.eqb Ascii.eqb Bool.eqb];
    eapply record_version_insert; eauto.
Qed.

Lemma close_removes self p td uri k :
  dict_get "textDocument" p = Some (PDict td) ->
  dict_get "uri" td = Some uri ->
  uri <> PNone ->
  py_key uri = Ok k ->
  on_client_notification self "textDocument/didClose" (PDict p)
  = Ok (set_document_versions self (delete k (document_versions self))).
Proof.
  intros Htd Hu Hun Hk. unfold on_client_notification.
  cbn [String.eqb Ascii.eqb Bool.eqb py_get mbind result_bind].
  rewrite Htd. cbn [default from_option id py_get mbind result_bind].
  rewrite Hu. cbn [default from_option id].
  replace (is_none uri) with false by (now destruct uri).
  cbn [negb]. now rewrite Hk.
Qed.

(** X9. Recording a version.  A [didOpen] or [didChange] whose
    [textDocument] has a URI and a version puts that version under the key
    of the URI, overwriting what was there; the other documents, the cookie
    table, its counter and the primary server stay as they were. *)
Theorem version_recorded (self : LspLogic) (method : string)
  (p td : pydict) (uri v : pyval) (k : hkey) :
  method = "textDocument/didOpen" \/ method = "textDocument/didChange" ->
  dict_get "textDocument" p = Some (PDict td) ->
  dict_get "uri" td = Some uri ->
  uri <> PNone ->
  py_key uri = Ok k ->
  dict_get "version" td = Some v ->
  v <> PNone ->
  exists self',
    on_client_notification self method (PDict p) = Ok self' /\
    document_versions self' !! k = Some v /\
    (forall k', k' <> k ->
       document_versions self' !! k' = document_versions self !! k') /\
    data_cookies self' = data_cookies self /\
    _data_cookie_counter self' = _data_cookie_counter self /\
    primary_server self' = primary_server self.
Proof.
  intros Hm Htd Hu Hun Hk Hv Hvn.
  exists (set_document_versions self (<[k := v]> (document_versions self))).
  split.
  - eapply open_or_change_records; eauto.
  - cbn. split; [apply lookup_insert_eq | ].
    split; [ | auto]. intros k' Hne. now apply lookup_insert_ne.
Qed.

(** X10. Closing a document.  A [didClose] whose [textDocument] has a URI
    removes the entry of that URI and no other; for a document that is not
    tracked the engine is left exactly as it was, without an error. *)
Theorem version_forgotten (self : LspLogic) (p td : pydict) (uri : pyval)
  (k : hkey) :
  dict_get "textDocument" p = Some (PDict td) ->
  dict_get "uri" td = Some uri ->
  uri <> PNone ->
  py_key uri = Ok k ->
  exists self',
    on_client_notification self "textDocument/didClose" (PDict p) = Ok self' /\
    document_versions self' !! k = None /\
    (forall k', k' <> k ->
       document_versions self' !! k' = document_versions self !! k') /\
    (document_versions self !! k = None -> self' = self).
Proof.
  intros Htd Hu Hun Hk.
  exists (set_document_versions self (delete k (document_versions self))).
  split.
  - eapply close_removes; eauto.
  - cbn. split; [apply lookup_delete_eq | ].
    split; [intros k' Hne; now apply lookup_delete_ne | ].
    intros Hnone. destruct self as [ps dv dc n]. unfold set_document_versions.
    cbn in *. f_equal. now apply delete_id.
Qed.

(** X11. Missing fields are ignored.  A [didOpen] or [didChange] whose
    [textDocument] is absent, or lacks the URI or the version (or has
    [null] there), changes nothing and raises nothing. *)
Theorem version_fields_missing (self : LspLogic) (method : string)
  (p td : pydict) :
  method = "textDocument/didOpen" \/ method = "textDocument/didChange" ->
  default (PDict []) (dict_get "textDocument" p) = PDict td ->
  default PNone (dict_get "uri" td) = PNone \/
  default PNone (dict_get "version" td) = PNone ->
  on_client_notification self method (PDict p) = Ok self.
Proof.
  intros Hm Htd Hmiss.
  assert (H : record_version self (PDict p) = Ok self).
  { unfold record_version. cbn [py_get mbind result_bind]. rewrite Htd.
    cbn [py_get mbind result_bind].
    destruct Hmiss as [-> | ->]; [reflexivity | ].
    now rewrite andb_false_r. }
  unfold on_client_notification.
  destruct Hm as [-> | ->]; cbn [String.eqb Ascii.eqb Bool.eqb]; exact H.
Qed.

Lemma key_of_versioned self d uri k :
  dict_get "uri" d = Some uri ->
  py_key uri = Ok k ->
  get_notif_aggregation_key self (Some "textDocument/publishDiagnostics")
    (PDict d)
  = let version := default PNone (dict_get "version" d) in
    let key v :=
      Some [PStr "notification"; PStr "textDocument/publishDiagnostics"; uri;
            py_or v (PInt 0)] in
    match document_versions self !! k with
    | Some tracked_version =>
        if is_none version then Ok (key tracked_version)
        else
          stale ← py_lt version tracked_version;
          if stale : bool then Ok (Some [PStr "drop"]) else Ok (key version)
    | None => Ok (key version)
    end.
Proof.
  intros Hu Hk. unfold get_notif_aggregation_key.
  cbn [String.eqb Ascii.eqb Bool.eqb py_get mbind result_bind].
  rewrite Hu. cbn [default from_option id]. now rewrite Hk.
Qed.

(** X12. A change and the diagnostics that follow.  After a [didChange]
    that gives a document the integer version [v], diagnostics for that
    document with an integer version [w] are dropped when [w < v], and get
    the key of the document at version [w] otherwise. *)
Theorem change_then_diagnostics (self : LspLogic) (p td d : pydict)
  (u : string) (v w : Z) :
  dict_get "textDocument" p = Some (PDict td) ->
  dict_get "uri" td = Some (PStr u) ->
  dict_get "version" td = Some (PInt v) ->
  dict_get "uri" d = Some (PStr u) ->
  dict_get "version" d = Some (PInt w) ->
  exists self',
    on_client_notification self "textDocument/didChange" (PDict p) = Ok self' /\
    get_notif_aggregation_key self' (Some "textDocument/publishDiagnostics")
      (PDict d)
    = Ok (Some (if (w <? v)%Z then [PStr "drop"]
                else [PStr "notification";
                      PStr "textDocument/publishDiagnostics";
                      PStr u; PInt w])).
Proof.
  intros Htd Hu Hv Hdu Hdw.
  eexists. split.
  { apply (open_or_change_records self "textDocument/didChange" p td (PStr u)
             (HStr u) (PInt v)); auto; discriminate. }
  rewrite (key_of_versioned _ d (PStr u) (HStr u) Hdu eq_refl).
  cbn zeta. cbn [document_versions set_document_versions].
  rewrite lookup_insert_eq, Hdw. cbn [default from_option id is_none py_lt as_int
    mbind result_bind].
  destruct (w <? v)%Z; [reflexivity | ].
  unfold py_or, truthy. now destruct (Z.eqb_spec w 0) as [-> | _].
Qed.

(** X13. After a close nothing is stale.  Once a document is closed,
    diagnostics for it are never dropped and never compared: whatever their
    version field holds, they get the key of the document with that version,
    or with 0 when the version is absent or falsy. *)
Theorem close_then_diagnostics (self : LspLogic) (p td d : pydict)
  (u : string) :
  dict_get "textDocument" p = Some (PDict td) ->
  dict_get "uri" td = Some (PStr u) ->
  dict_get "uri" d = Some (PStr u) ->
  exists self',
    on_client_notification self "textDocument/didClose" (PDict p) = Ok self' /\
    get_notif_aggregation_key self' (Some "textDocument/publishDiagnostics")
      (PDict d)
    = Ok (Some [PStr "notification"; PStr "textDocument/publishDiagnostics";
                PStr u;
                py_or (default PNone (dict_get "version" d)) (PInt 0)]).
Proof.
  intros Htd Hu Hdu.
  eexists. split.
  { apply (close_removes self p td (PStr u) (HStr u)); auto; discriminate. }
  rewrite (key_of_versioned _ d (PStr u) (HStr u) Hdu eq_refl).
  cbn zeta. cbn [document_versions set_document_versions].
  now rewrite lookup_delete_eq.
Qed.

(** X14. Only stale diagnostics are dropped.  The drop signal is returned
    for the diagnostics method alone, and only when the payload's document
    is tracked and the payload has a version that is less than the tracked
    one. *)
Theorem drop_only_when_stale (self : LspLogic) (method : option string)
  (payload : pyval) :
  get_notif_aggregation_key self method payload = Ok (Some [PStr "drop"]) ->
  method = Some "textDocument/publishDiagnostics" /\
  exists d k version tracked_version,
    payload = PDict d /\
    py_key (default (PStr "") (dict_get "uri" d)) = Ok k /\
    document_versions self !! k = Some tracked_version /\
    dict_get "version" d = Some version /\
    py_lt version tracked_version = Ok true.
Proof.
  unfold get_notif_aggregation_key. intros H.
  destruct method as [m | ]; [ | discriminate].
  destruct (String.eqb_spec m "textDocument/publishDiagnostics") as [-> | _];
    [ | discriminate].
  split; [reflexivity | ].
  inv_bind H. inv_bind H. inv_bind H.
  destruct payload as [ | | | | | d]; try discriminate.
  cbn [py_get] in Hx, Hx0. inversion Hx; subst; clear Hx.
  inversion Hx0; subst; clear Hx0.
  destruct (document_versions self !! x1) as [t | ] eqn:Ht; [ | discriminate].
  destruct (is_none _) eqn:Hn; [discriminate | ].
  inv_bind H. destruct x; [ | discriminate].
  destruct (dict_get "version" d) as [ver | ] eqn:Hver; [ | discriminate].
  exists d, x1, ver, t. auto.
Qed.

(** ** The cookie table *)

Lemma stash_keys self payload srv self' payload' :
  cookie_keys_issued self ->
  _stash_data_maybe self payload srv = Ok (self', payload') ->
  cookie_keys_issued self'.
Proof.
  intros Hi H. unfold _stash_data_maybe in H.
  destruct (negb (truthy payload)); [now inversion H; subst | ].
  inv_bind H. destruct (negb x); [now inversion H; subst | ].
  inv_bind H. inv_bind H. inversion H; subst; clear H.
  intros id. cbn. rewrite lookup_insert_is_Some.
  set (c := _data_cookie_counter self).
  intros [<- | [_ Hid]].
  - exists (S c). split; [lia | reflexivity].
  - destruct (Hi id Hid) as (n & Hn & ->). exists n. split; [lia | reflexivity].
Qed.

Lemma bump_keys self : cookie_keys_issued self -> cookie_keys_issued (bump_counter self).
Proof.
  intros Hi id Hid. destruct (Hi id Hid) as (n & Hn & ->).
  exists n. cbn. split; [lia | reflexivity].
Qed.

Lemma stash_aftermath_keys self payload srv :
  cookie_keys_issued self -> cookie_keys_issued (stash_aftermath self payload srv).
Proof.
  intros Hi. unfold stash_aftermath.
  destruct (_stash_data_maybe self payload srv) as [[self' p'] | e] eqn:H.
  - eapply stash_keys; eauto.
  - destruct (truthy payload); [ | exact Hi].
    destruct (py_in "data" payload) as [[ | ] | ]; auto using bump_keys.
Qed.

Lemma stash_all_aftermath_keys actions : forall self srv,
  cookie_keys_issued self ->
  cookie_keys_issued (stash_all_aftermath self actions srv).
Proof.
  induction actions as [ | a rest IH]; intros self srv Hi; [exact Hi | ].
  cbn [stash_all_aftermath].
  destruct (_stash_data_maybe self a srv) as [[self1 a'] | e] eqn:H.
  - apply IH. eapply stash_keys; eauto.
  - now apply stash_aftermath_keys.
Qed.

Lemma stash_all_keys actions : forall self srv self' actions',
  cookie_keys_issued self ->
  stash_all self actions srv = Ok (self', actions') ->
  cookie_keys_issued self'.
Proof.
  induction actions as [ | a rest IH]; intros self srv self' actions' Hi H.
  - now inversion H; subst.
  - cbn [stash_all] in H. inv_bind H. destruct x as [self1 a'].
    inv_bind H. destruct x as [self2 rest'].
    inversion H; subst; clear H.
    eapply IH; [ | exact Hx0]. eapply stash_keys; eauto.
Qed.

Lemma step_keys self self' :
  cookie_keys_issued self -> step self self' -> cookie_keys_issued self'.
Proof.
  intros Hi Hs.
  destruct Hs as [self m p self' H | self h m rp pl e srv self' h' pl' H
                 | self pl srv self' pl' H].
  - apply on_client_notification_cookies in H as [Hc Hn].
    unfold cookie_keys_issued. now rewrite Hc, Hn.
  - unfold on_server_response in H.
    destruct (negb (truthy pl) || e); [now inversion H; subst | ].
    inv_bind H. destruct x as [self1 payload1].
    assert (H1 : cookie_keys_issued self1).
    { destruct (bool_decide (m = Some "textDocument/codeAction")).
      - inv_bind Hx. inv_bind Hx. destruct x0 as [s a].
        inversion Hx; subst; clear Hx. eapply stash_all_keys; eauto.
      - now inversion Hx; subst. }
    destruct (bool_decide (m = Some "initialize")).
    + do 5 inv_bind H. now inversion H; subst.
    + now inversion H; subst.
  - eapply stash_keys; eauto.
Qed.

Lemma step_any_keys self self' :
  cookie_keys_issued self -> step_any self self' -> cookie_keys_issued self'.
Proof.
  intros Hi Hs. destruct Hs as [self self' H | self pl srv e H
                               | self h m rp pl ie srv e H].
  - eapply step_keys; eauto.
  - now apply stash_aftermath_keys.
  - unfold response_aftermath.
    destruct (negb (truthy pl) || ie); [exact Hi | ].
    destruct (bool_decide (m = Some "textDocument/codeAction")); [ | exact Hi].
    destruct (py_iter pl); [ | exact Hi]. now apply stash_all_aftermath_keys.
Qed.

Lemma reachable_any_keys self : reachable_any self -> cookie_keys_issued self.
Proof.
  intros [primary Hs].
  assert (H0 : cookie_keys_issued (LspLogic_init primary)).
  { intros id [x Hx]. cbn in Hx. now rewrite lookup_empty in Hx. }
  revert H0. induction Hs as [ | s1 s2 s3 H12 _ IH]; [auto | ].
  intros H1. apply IH. eapply step_any_keys; eauto.
Qed.

Lemma reachable_is_reachable_any self : reachable self -> reachable_any self.
Proof.
  intros [primary Hs]. exists primary.
  induction Hs as [ | s1 s2 s3 H12 _ IH]; [apply rtc_refl | ].
  eapply rtc_l; [apply any_returns; exact H12 | exact IH].
Qed.

(** X15. Tokens are never reused.  In every engine a session can reach,
    calls that raised and were caught included, the keys of the cookie
    table are tokens numbered from 1 to the counter; so the token that the
    next stash makes, numbered one past the counter, is not in the table.
    (The table need not hold every number: a stash that raises on
    [payload['data']] has used one up.) *)
Theorem next_token_is_fresh (self : LspLogic) :
  reachable_any self ->
  cookie_keys_issued self /\
  data_cookies self !! cookie_id (S (_data_cookie_counter self)) = None.
Proof.
  intros Hr. pose proof (reachable_any_keys self Hr) as Hk.
  split; [exact Hk | ].
  destruct (data_cookies self !! cookie_id (S (_data_cookie_counter self)))
    as [c | ] eqn:Hl; [ | reflexivity].
  destruct (Hk _ (mk_is_Some _ _ Hl)) as (n & Hn & He).
  apply cookie_id_inj in He. lia.
Qed.

(** X16. The cookie table only grows: a cookie that a reachable engine
    holds is held, unchanged, by every engine that follows, whatever is
    stashed, answered or notified in between. *)
Theorem cookies_are_kept (self self' : LspLogic) (id : string)
  (c : DataCookie) :
  reachable self ->
  rtc step self self' ->
  data_cookies self !! id = Some c ->
  data_cookies self' !! id = Some c.
Proof.
  intros Hr Hs Hl.
  destruct (reachable_any_keys self (reachable_is_reachable_any self Hr) id)
    as (n & Hn & ->); [eauto | ].
  apply (steps_keep n c self self'); [ | exact Hs].
  split; [lia | exact Hl].
Qed.

Lemma stash_aftermath_keeps n c self payload srv :
  holds_cookie n c self -> holds_cookie n c (stash_aftermath self payload srv).
Proof.
  intros Hh. unfold stash_aftermath.
  destruct (_stash_data_maybe self payload srv) as [[self' p'] | e] eqn:H.
  - eapply stash_keeps; eauto.
  - destruct (truthy payload); [ | exact Hh].
    destruct (py_in "data" payload) as [[ | ] | ]; try exact Hh.
    destruct Hh as [Hle Hl]. split; cbn; [lia | exact Hl].
Qed.

Lemma stash_all_aftermath_keeps n c actions : forall self srv,
  holds_cookie n c self ->
  holds_cookie n c (stash_all_aftermath self actions srv).
Proof.
  induction actions as [ | a rest IH]; intros self srv Hh; [exact Hh | ].
  cbn [stash_all_aftermath].
  destruct (_stash_data_maybe self a srv) as [[self1 a'] | e] eqn:H.
  - apply IH. eapply stash_keeps; eauto.
  - now apply stash_aftermath_keeps.
Qed.

(** A cookie is kept also across the calls that raise. *)
Lemma cookies_are_kept_across_raises (self self' : LspLogic) (id : string)
  (c : DataCookie) :
  reachable_any self ->
  rtc step_any self self' ->
  data_cookies self !! id = Some c ->
  data_cookies self' !! id = Some c.
Proof.
  intros Hr Hs Hl.
  destruct (reachable_any_keys self Hr id) as (n & Hn & ->); [eauto | ].
  assert (Hh : holds_cookie n c self) by (split; [lia | exact Hl]).
  clear Hl Hn Hr. revert Hh.
  induction Hs as [ | s1 s2 s3 H12 _ IH]; intros Hh; [exact (proj2 Hh) | ].
  apply IH. destruct H12 as [s s' H | s pl srv e H | s h m rp pl ie srv e H].
  - eapply step_keeps; eauto.
  - now apply stash_aftermath_keeps.
  - unfold response_aftermath.
    destruct (negb (truthy pl) || ie); [exact Hh | ].
    destruct (bool_decide (m = Some "textDocument/codeAction")); [ | exact Hh].
    destruct (py_iter pl); [ | exact Hh]. now apply stash_all_aftermath_keeps.
Qed.

Lemma holds_cookie_resolves n d srv self :
  holds_cookie n (mkDataCookie d srv) self ->
  resolves_to self (cookie_id n) d srv.
Proof.
  intros Hh self2 h method p servers Hs Hm Hp.
  apply (route_recovered self2 h method p servers (mkDataCookie d srv)).
  unfold recovers. rewrite Hm, Hp. cbn [default from_option id].
  rewrite lookup_cookie_id. exact (proj2 (steps_keep _ _ _ _ Hh Hs)).
Qed.

Lemma resolves_to_later self self' token d srv :
  rtc step self self' -> resolves_to self token d srv ->
  resolves_to self' token d srv.
Proof.
  intros Hs Hr self2 h method p servers Hs2. apply Hr.
  eapply rtc_trans; eauto.
Qed.

Lemma stash_all_steps actions : forall self srv self' actions',
  stash_all self actions srv = Ok (self', actions') -> rtc step self self'.
Proof.
  induction actions as [ | a rest IH]; intros self srv self' actions' H.
  - inversion H; subst. apply rtc_refl.
  - cbn [stash_all] in H. inv_bind H. destruct x as [self1 a'].
    inv_bind H. destruct x as [self2 rest'].
    inversion H; subst; clear H.
    eapply rtc_l; [eapply step_stash; eauto | eapply IH; eauto].
Qed.

Lemma stash_all_stashed actions : forall self srv,
  Forall is_dict actions ->
  exists self' actions',
    stash_all self actions srv = Ok (self', actions') /\
    document_versions self' = document_versions self /\
    primary_server self' = primary_server self /\
    Forall2 (stashed_as self' srv) actions actions'.
Proof.
  induction actions as [ | a rest IH]; intros self srv Hd.
  - exists self, []. repeat split. constructor.
  - inversion Hd as [ | ? ? [item ->] Hrest]; subst.
    assert (H1 : exists self1 a',
      _stash_data_maybe self (PDict item) srv = Ok (self1, a') /\
      document_versions self1 = document_versions self /\
      primary_server self1 = primary_server self /\
      stashed_as self1 srv (PDict item) a').
    { destruct (dict_get "data" item) as [d | ] eqn:Hg.
      - eexists _, _. split; [exact (stash_data self item d srv Hg) | ].
        split; [reflexivity | ]. split; [reflexivity | ].
        exists item. split; [reflexivity | ]. rewrite Hg.
        eexists. split; [reflexivity | ].
        apply holds_cookie_resolves. split; cbn; [lia | ].
        apply lookup_insert_eq.
      - exists self, (PDict item). split.
        + unfold _stash_data_maybe.
          destruct (negb (truthy (PDict item))); [reflexivity | ].
          cbn [py_in mbind result_bind]. unfold dict_has. now rewrite Hg.
        + repeat split. exists item. split; [reflexivity | ]. now rewrite Hg. }
    destruct H1 as (self1 & a' & Hs1 & Hdv1 & Hp1 & Ha).
    destruct (IH self1 srv Hrest) as (self' & rest' & Hs & Hdv & Hp & Hall).
    exists self', (a' :: rest'). cbn [stash_all]. rewrite Hs1.
    cbn [mbind result_bind]. rewrite Hs. cbn [mbind result_bind].
    split; [reflexivity | ]. split; [congruence | ]. split; [congruence | ].
    constructor; [ | exact Hall].
    destruct Ha as (it & Hit & Hm). exists it. split; [exact Hit | ].
    destruct (dict_get "data" it); [ | exact Hm].
    destruct Hm as (token & -> & Hr). exists token. split; [reflexivity | ].
    eapply resolves_to_later; [ | exact Hr]. eapply stash_all_steps; eauto.
Qed.

(** X17. A code-action reply, end to end.  Post-processing a reply that
    is a list of action objects returns a list of the same length in which
    an action without [data] is as it was and an action with [data] has a
    token there instead; a later resolve request with that token gets the
    action's own [data] back and goes to the replying server alone.  The
    store, the version table and the primary server are not touched. *)
Theorem code_action_reply_is_stashed (self : LspLogic) (h : store)
  (request_params : pyval) (actions : list pyval) (srv : addr) :
  actions <> [] ->
  Forall is_dict actions ->
  exists self' actions',
    on_server_response self h (Some "textDocument/codeAction") request_params
      (PList actions) false srv
    = Ok (self', h, PList actions') /\
    Forall2 (stashed_as self' srv) actions actions' /\
    document_versions self' = document_versions self /\
    primary_server self' = primary_server self.
Proof.
  intros Hne Hd.
  destruct (stash_all_stashed actions self srv Hd)
    as (self' & actions' & Hs & Hdv & Hp & Hall).
  exists self', actions'. split; [ | auto].
  unfold on_server_response.
  replace (truthy (PList actions)) with true
    by (destruct actions; [congruence | reflexivity]).
  cbn [negb orb py_iter mbind result_bind].
  rewrite (bool_decide_eq_true_2
             (Some "textDocument/codeAction" = Some "textDocument/codeAction"))
    by reflexivity.
  cbn [py_iter mbind result_bind]. rewrite Hs. cbn [mbind result_bind].
  rewrite (bool_decide_eq_false_2
             (Some "textDocument/codeAction" = Some "initialize"))
    by discriminate.
  reflexivity.
Qed.

(** X18. An initialize reply replaces what the engine knows of the server.
    For a reply object whose [capabilities] is an object or absent, the
    server's capabilities become that object (the empty one when absent),
    whatever they were; the name becomes [serverInfo.name] when the reply
    has one and stays otherwise.  The server's cookie, the other servers,
    the engine and the reply are not touched. *)
Theorem initialize_reply_updates_server (self : LspLogic) (h : store)
  (request_params : pyval) (p si cd : pydict) (srv : addr) :
  p <> [] ->
  default (PDict []) (dict_get "serverInfo" p) = PDict si ->
  default (PDict []) (dict_get "capabilities" p) = PDict cd ->
  exists h',
    on_server_response self h (Some "initialize") request_params (PDict p)
      false srv
    = Ok (self, h', PDict p) /\
    name (h' srv) = default (name (h srv)) (dict_get "name" si) /\
    caps (h' srv) = PDict cd /\
    cookie (h' srv) = cookie (h srv) /\
    forall a, a <> srv -> h' a = h a.
Proof.
  intros Hne Hsi Hcd. unfold on_server_response.
  replace (truthy (PDict p)) with true
    by (destruct p; [congruence | reflexivity]).
  cbn [negb orb].
  rewrite (bool_decide_eq_false_2
             (Some "initialize" = Some "textDocument/codeAction"))
    by discriminate.
  cbn [mbind result_bind].
  rewrite (bool_decide_eq_true_2 (Some "initialize" = Some "initialize"))
    by reflexivity.
  cbn [py_get mbind result_bind]. rewrite Hsi.
  cbn [py_in mbind result_bind].
  assert (Hcaps : (if truthy (default PNone (dict_get "capabilities" p))
                   then py_copy (default PNone (dict_get "capabilities" p))
                   else Ok (PDict [])) = Ok (PDict cd)).
  { destruct (dict_get "capabilities" p) as [c | ]; cbn in Hcd |- *.
    - subst c. now destruct cd.
    - now inversion Hcd. }
  unfold dict_has. destruct (dict_get "name" si) as [n | ] eqn:Hn.
  - assert (Hg : dict_get "serverInfo" p = Some (PDict si)).
    { destruct (dict_get "serverInfo" p) as [x | ]; cbn in Hsi.
      - now subst.
      - inversion Hsi; subst. discriminate. }
    cbn [py_getitem]. rewrite Hg. cbn [mbind result_bind py_getitem].
    rewrite Hn. cbn [mbind result_bind]. rewrite Hcaps.
    cbn [mbind result_bind]. eexists. split; [reflexivity | ].
    unfold store_set. rewrite !Nat.eqb_refl. cbn.
    repeat split. intros a Ha.
    now destruct (Nat.eqb_spec a srv).
  - cbn [mbind result_bind]. rewrite Hcaps. cbn [mbind result_bind].
    eexists. split; [reflexivity | ].
    unfold store_set. rewrite !Nat.eqb_refl. cbn.
    repeat split. intros a Ha.
    now destruct (Nat.eqb_spec a srv).
Qed.

(** ** Attribution and aggregation of diagnostics *)

Lemma dict_set_set {V} (k : string) (v w : V) d :
  dict_set k v (dict_set k w d) = dict_set k v d.
Proof.
  induction d as [ | [k0 v0] d IH]; cbn [dict_set].
  - now rewrite String.eqb_refl.
  - destruct (String.eqb k k0) eqn:E; cbn [dict_set]; rewrite ?String.eqb_refl, ?E;
      [reflexivity | now rewrite IH].
Qed.

Lemma dict_has_set {V} (k : string) (v : V) d : dict_has k (dict_set k v d) = true.
Proof. unfold dict_has. now rewrite dict_get_set_eq. Qed.

Lemma tag_diag_dict nm d :
  tag_diag nm (PDict d) = Ok (PDict (attribute nm d)).
Proof.
  unfold tag_diag, attribute. cbn [py_in mbind result_bind].
  now destruct (dict_has "source" d).
Qed.

Lemma tag_diags_dicts nm (diags : list pydict) :
  tag_diags nm (PList (map PDict diags))
  = Ok (PList (map (fun d => PDict (attribute nm d)) diags)).
Proof.
  unfold tag_diags. cbn [py_iter mbind result_bind].
  assert (H : mapM (tag_diag nm) (map PDict diags)
              = Ok (map (fun d => PDict (attribute nm d)) diags)).
  { induction diags as [ | d rest IH]; [reflexivity | ].
    cbn [map mapM]. rewrite tag_diag_dict. cbn [mbind result_bind].
    now rewrite IH. }
  now rewrite H.
Qed.

(** X19. Attribution of diagnostics.  In a diagnostics notification whose
    [diagnostics] is a list of objects, every object without a [source]
    gets the name of the sending server there, and every object that has a
    [source] is left as it is; nothing else of the notification changes. *)
Theorem diagnostics_are_attributed (h : store) (p : pydict)
  (diags : list pydict) (source : addr) :
  dict_get "diagnostics" p = Some (PList (map PDict diags)) ->
  on_server_notification h "textDocument/publishDiagnostics" (PDict p) source
  = Ok (PDict (dict_set "diagnostics"
                 (PList (map (fun d => PDict (attribute (name (h source)) d))
                           diags)) p)).
Proof.
  intros Hg. unfold on_server_notification.
  cbn [String.eqb Ascii.eqb Bool.eqb py_get mbind result_bind]. rewrite Hg.
  cbn [default from_option id]. rewrite tag_diags_dicts.
  cbn [mbind result_bind put_back]. unfold dict_has. now rewrite Hg.
Qed.

Lemma tag_diag_fixed nm x y :
  tag_diag nm x = Ok y -> forall nm', tag_diag nm' y = Ok y.
Proof.
  unfold tag_diag. intros H nm'. inv_bind H.
  destruct x0.
  - inversion H; subst. now rewrite Hx.
  - destruct x; try discriminate. cbn [py_setitem] in H.
    inversion H; subst. cbn [py_in mbind result_bind].
    now rewrite dict_has_set.
Qed.

Lemma tag_diag_returns_for_any_name nm x y :
  tag_diag nm x = Ok y -> forall nm', exists y', tag_diag nm' x = Ok y'.
Proof.
  unfold tag_diag. intros H nm'. inv_bind H. rewrite Hx.
  cbn [mbind result_bind]. destruct x0; [eauto | ].
  destruct x; try discriminate. cbn [py_setitem]. eauto.
Qed.

Lemma mapM_tag_fixed nm xs : forall ys,
  mapM (tag_diag nm) xs = Ok ys ->
  forall nm', mapM (tag_diag nm') ys = Ok ys.
Proof.
  induction xs as [ | x xs IH]; intros ys H nm'.
  - now inversion H.
  - cbn [mapM] in H. inv_bind H. inv_bind H. inversion H; subst; clear H.
    cbn [mapM]. rewrite (tag_diag_fixed _ _ _ Hx nm').
    cbn [mbind result_bind]. now rewrite (IH _ Hx0 nm').
Qed.

Lemma mapM_tag_returns_for_any_name nm xs : forall ys,
  mapM (tag_diag nm) xs = Ok ys ->
  forall nm', exists ys', mapM (tag_diag nm') xs = Ok ys'.
Proof.
  induction xs as [ | x xs IH]; intros ys H nm'; [now exists [] | ].
  cbn [mapM] in H. inv_bind H. inv_bind H.
  destruct (tag_diag_returns_for_any_name _ _ _ Hx nm') as [y' Hy'].
  destruct (IH _ Hx0 nm') as [ys' Hys'].
  exists (y' :: ys'). cbn [mapM]. rewrite Hy'. cbn [mbind result_bind].
  now rewrite Hys'.
Qed.

Lemma bind_Ok {A B} (a : A) (f : A -> result B) : Ok a ≫= f = f a.
Proof. reflexivity. Qed.

Lemma tag_diags_fixed nm v v' :
  tag_diags nm v = Ok v' -> forall nm', tag_diags nm' v' = Ok v'.
Proof.
  unfold tag_diags. intros H nm'. inv_bind H. inv_bind H.
  inversion H; subst; clear H.
  destruct v; try discriminate; cbn [with_elements].
  - rewrite Hx, bind_Ok.
    destruct (mapM_tag_returns_for_any_name _ _ _ Hx0 nm') as [ys' ->].
    reflexivity.
  - cbn [py_iter] in Hx. inversion Hx; subst.
    cbn [py_iter]. rewrite bind_Ok.
    now rewrite (mapM_tag_fixed _ _ _ Hx0 nm').
  - rewrite Hx, bind_Ok.
    destruct (mapM_tag_returns_for_any_name _ _ _ Hx0 nm') as [ys' ->].
    reflexivity.
Qed.

(** X20. Attribution is settled once.  When the processing of a server
    notification returns, processing its result again, for the same or any
    other server, returns it unchanged: a [source] once present is never
    overwritten. *)
Theorem attribution_is_settled (h h' : store) (method : string)
  (params params1 : pyval) (source source' : addr) :
  on_server_notification h method params source = Ok params1 ->
  on_server_notification h' method params1 source' = Ok params1.
Proof.
  unfold on_server_notification.
  destruct (String.eqb method "textDocument/publishDiagnostics"); [ | auto].
  intros H. inv_bind H. inv_bind H. inversion H; subst; clear H.
  destruct params as [ | | | | | p]; try discriminate.
  cbn [py_get] in Hx. inversion Hx; subst; clear Hx.
  cbn [put_back]. unfold dict_has.
  destruct (dict_get "diagnostics" p) as [diags | ] eqn:Hg.
  - cbn [default from_option id] in Hx0.
    cbn [py_get mbind result_bind]. rewrite dict_get_set_eq.
    cbn [default from_option id].
    rewrite (tag_diags_fixed _ _ _ Hx0 (name (h' source'))).
    cbn [mbind result_bind put_back]. rewrite dict_has_set.
    now rewrite dict_set_set.
  - cbn [py_get mbind result_bind]. rewrite Hg.
    cbn [default from_option id].
    change (tag_diags (name (h' source')) (PList [])) with (Ok (PList [])).
    cbn [mbind result_bind put_back]. unfold dict_has. now rewrite Hg.
Qed.

(** X21. Code actions are concatenated in the order of arrival: the
    value returned is the aggregate's list followed by the reply's, an
    absent side counting as the empty list; neither argument is touched. *)
Theorem code_actions_concatenate (self : LspLogic) (h : store)
  (aggregate payload : pyval) (source : addr) :
  aggregate = PNone \/ (exists a, aggregate = PList a) ->
  payload = PNone \/ (exists b, payload = PList b) ->
  aggregate_payloads self h "textDocument/codeAction" aggregate payload
    source false
  = Ok (mkAggregated (PList (actions_of aggregate ++ actions_of payload))
          aggregate payload).
Proof.
  intros [-> | [a ->]] [-> | [b ->]]; unfold aggregate_payloads;
    cbn [String.eqb Ascii.eqb Bool.eqb actions_of];
    try destruct a; try destruct b; cbn; rewrite ?app_nil_r; reflexivity.
Qed.

(** X22. Diagnostics are appended in the order of arrival: the aggregate's
    [diagnostics] become its former list followed by the reply's
    diagnostics, attributed to the replying server; the rest of the
    aggregate is kept, and the reply's own objects carry the attribution
    afterwards. *)
Theorem diagnostics_are_appended (self : LspLogic) (h : store)
  (a p : pydict) (cur : list pyval) (new : list pydict) (source : addr) :
  default (PList []) (dict_get "diagnostics" a) = PList cur ->
  dict_get "diagnostics" p = Some (PList (map PDict new)) ->
  let tagged := map (fun d => PDict (attribute (name (h source)) d)) new in
  aggregate_payloads self h "textDocument/publishDiagnostics" (PDict a)
    (PDict p) source false
  = Ok (mkAggregated
          (PDict (dict_set "diagnostics" (PList (cur ++ tagged)) a))
          (PDict (dict_set "diagnostics" (PList (cur ++ tagged)) a))
          (PDict (dict_set "diagnostics" (PList tagged) p))).
Proof.
  intros Ha Hp tagged. unfold aggregate_payloads.
  cbn [String.eqb Ascii.eqb Bool.eqb py_get mbind result_bind].
  rewrite Ha, Hp. cbn [default from_option id]. rewrite tag_diags_dicts.
  cbn [mbind result_bind py_add py_setitem put_back]. unfold dict_has.
  now rewrite Hp.
Qed.

(** ** dmerge, key by key *)

Lemma dmerge_step_at d1 k value :
  dict_get k (dmerge_step d1 (k, value))
  = dmerge_value (dict_get k d1) (Some value).
Proof.
  unfold dmerge_step, dmerge_value.
  destruct (dict_get k d1) as [v1 | ] eqn:Hg; [ | apply dict_get_set_eq].
  destruct v1, value; cbn [is_scalar andb negb];
    rewrite ?dict_get_set_eq; auto.
Qed.

Lemma dmerge_step_other d1 key value k :
  key <> k ->
  dict_get k (dmerge_step d1 (key, value)) = dict_get k d1.
Proof.
  intros Hne. unfold dmerge_step.
  destruct (dict_get key d1) as [v1 | ]; [ | now apply dict_get_set_ne].
  destruct v1, value; cbn [is_scalar andb negb];
    rewrite ?dict_get_set_ne by exact Hne; reflexivity.
Qed.

Lemma dmerge_value_None o : dmerge_value o None = o.
Proof. now destruct o as [[ | | | | | ] | ]. Qed.

Lemma dmerge_lookup (d1 d2 : pydict) (k : string) :
  keys_unique d2 = true ->
  dict_get k (dmerge d1 d2) = dmerge_value (dict_get k d1) (dict_get k d2).
Proof.
  rewrite dmerge_fold. revert d1.
  induction d2 as [ | [key value] rest IH]; intros d1 Hu.
  - cbn. now rewrite dmerge_value_None.
  - cbn [keys_unique] in Hu. apply andb_prop in Hu as [Hfresh Hu].
    apply negb_true_iff in Hfresh. unfold dict_has in Hfresh.
    cbn [fold_left dict_get]. rewrite (IH _ Hu).
    destruct (String.eqb_spec k key) as [-> | Hne].
    + destruct (dict_get key rest); [discriminate | ].
      now rewrite dmerge_value_None, dmerge_step_at.
    + now rewrite dmerge_step_other by congruence.
Qed.

(** X23. What [dmerge] computes.  For a second dict that holds each key
    once, the merged dict holds under every key what the two dicts hold
    there, combined: the one value when only one dict has the key; the
    recursive merge of two dicts; the concatenation of two lists; and in
    every other case the first dict's value, unless it is a scalar and the
    second's is not. *)
Theorem dmerge_key_by_key (d1 d2 : pydict) (k : string) :
  keys_unique d2 = true ->
  dict_get k (dmerge d1 d2) = dmerge_value (dict_get k d1) (dict_get k d2).
Proof. exact (dmerge_lookup d1 d2 k). Qed.

(** X24. The conflicts of [dmerge], as its docstring has them: where both
    dicts hold a key, the first dict's scalar stands against a scalar, a
    value that is not a scalar wins over a scalar from either side. *)
Theorem dmerge_conflicts (d1 d2 : pydict) (k : string) (v1 v2 : pyval) :
  keys_unique d2 = true ->
  dict_get k d1 = Some v1 ->
  dict_get k d2 = Some v2 ->
  (is_scalar v1 = true -> is_scalar v2 = true ->
   dict_get k (dmerge d1 d2) = Some v1) /\
  (is_scalar v1 = true -> is_scalar v2 = false ->
   dict_get k (dmerge d1 d2) = Some v2) /\
  (is_scalar v1 = false -> is_scalar v2 = true ->
   dict_get k (dmerge d1 d2) = Some v1).
Proof.
  intros Hu H1 H2. rewrite (dmerge_lookup d1 d2 k Hu), H1, H2.
  repeat split; intros Hs1 Hs2; destruct v1, v2; try discriminate; reflexivity.
Qed.

Lemma dict_has_set_ne {V} (k k' : string) (v : V) d :
  k <> k' -> dict_has k' (dict_set k v d) = dict_has k' d.
Proof. intros Hne. unfold dict_has. now rewrite dict_get_set_ne. Qed.

Lemma keys_unique_set {V} (k : string) (v : V) d :
  keys_unique d = true -> keys_unique (dict_set k v d) = true.
Proof.
  induction d as [ | [k0 v0] d IH]; intros Hu; [reflexivity | ].
  cbn [keys_unique] in Hu. apply andb_prop in Hu as [Hfresh Hu].
  cbn [dict_set]. destruct (String.eqb_spec k k0) as [-> | Hne];
    cbn [keys_unique].
  - now rewrite Hfresh, Hu.
  - rewrite dict_has_set_ne by exact Hne. now rewrite Hfresh, IH.
Qed.

Lemma wf_values_set k v d :
  wf_pyval v = true ->
  forallb (fun kv => wf_pyval (snd kv)) d = true ->
  forallb (fun kv => wf_pyval (snd kv)) (dict_set k v d) = true.
Proof.
  intros Hv. induction d as [ | [k0 v0] d IH]; intros Hd.
  - cbn. now rewrite Hv.
  - cbn [forallb snd] in Hd. apply andb_prop in Hd as [H0 Hd].
    cbn [dict_set]. destruct (String.eqb k k0); cbn [forallb snd].
    + now rewrite Hv, Hd.
    + now rewrite H0, IH.
Qed.

Lemma wf_dict_set k v d :
  wf_pyval (PDict d) = true -> wf_pyval v = true ->
  wf_pyval (PDict (dict_set k v d)) = true.
Proof.
  cbn [wf_pyval]. intros Hd Hv. apply andb_prop in Hd as [Hu Hd].
  now rewrite keys_unique_set, wf_values_set.
Qed.

Lemma wf_dict_get k d v :
  wf_pyval (PDict d) = true -> dict_get k d = Some v -> wf_pyval v = true.
Proof.
  cbn [wf_pyval]. intros Hd Hg. apply andb_prop in Hd as [_ Hd].
  induction d as [ | [k0 v0] d IH]; [discriminate | ].
  cbn [forallb snd] in Hd. apply andb_prop in Hd as [H0 Hd].
  cbn [dict_get] in Hg. destruct (String.eqb k k0); [ | auto].
  now inversion Hg; subst.
Qed.

Lemma wf_list_app a b :
  wf_pyval (PList a) = true -> wf_pyval (PList b) = true ->
  wf_pyval (PList (a ++ b)) = true.
Proof. cbn [wf_pyval]. intros Ha Hb. rewrite forallb_app. now rewrite Ha, Hb. Qed.

Lemma dmerge_wf_rec v2 : forall b, v2 = PDict b -> forall d1,
  wf_pyval (PDict d1) = true -> wf_pyval v2 = true ->
  wf_pyval (PDict (dmerge d1 b)) = true.
Proof.
  induction v2 as [ | | | | | d2 IH] using pyval_ind; intros d Hd;
    try discriminate.
  inversion Hd; subst d; clear Hd. intros d1 H1 H2.
  rewrite dmerge_fold. cbn [wf_pyval] in H2. apply andb_prop in H2 as [_ H2].
  revert d1 H1. induction d2 as [ | [key value] rest IHrest]; intros d1 H1;
    [exact H1 | ].
  cbn [forallb snd] in H2. apply andb_prop in H2 as [Hv Hrest].
  inversion IH as [ | ? ? IHv IHr]; subst.
  cbn [fold_left]. apply IHrest; auto. cbn [snd] in IHv.
  unfold dmerge_step.
  destruct (dict_get key d1) as [v1 | ] eqn:Hg; [ | now apply wf_dict_set].
  pose proof (wf_dict_get _ _ _ H1 Hg) as Hv1.
  destruct v1, value; cbn [is_scalar andb negb];
    try exact H1; try (now apply wf_dict_set).
  - apply wf_dict_set; [exact H1 | now apply wf_list_app].
  - apply wf_dict_set; [exact H1 | ]. now apply (IHv d0 eq_refl).
Qed.

(** X25. [dmerge] keeps dicts well formed: when both dicts, and the dicts
    nested in them, hold each key once, so does the merged dict, at every
    depth. *)
Theorem dmerge_well_formed (d1 d2 : pydict) :
  wf_pyval (PDict d1) = true ->
  wf_pyval (PDict d2) = true ->
  wf_pyval (PDict (dmerge d1 d2)) = true.
Proof. intros H1 H2. now apply (dmerge_wf_rec (PDict d2) d2 eq_refl). Qed.

Lemma keys_dict_set {V} (k : string) (v : V) d :
  map fst (dict_set k v d)
  = if dict_has k d then map fst d else (map fst d ++ [k])%list.
Proof.
  unfold dict_has. induction d as [ | [k0 v0] d IH]; [reflexivity | ].
  cbn [dict_set dict_get]. destruct (String.eqb_spec k k0) as [-> | Hne].
  - reflexivity.
  - cbn [map fst]. rewrite IH. now destruct (dict_get k d).
Qed.

Lemma keys_dmerge_step d1 key value :
  map fst (dmerge_step d1 (key, value))
  = if dict_has key d1 then map fst d1 else (map fst d1 ++ [key])%list.
Proof.
  unfold dmerge_step, dict_has.
  destruct (dict_get key d1) as [v1 | ] eqn:Hg.
  - assert (Hs : forall x, map fst (dict_set key x d1) = map fst d1).
    { intros x. rewrite keys_dict_set. unfold dict_has. now rewrite Hg. }
    destruct v1, value; cbn [is_scalar andb negb]; rewrite ?Hs; reflexivity.
  - rewrite keys_dict_set. unfold dict_has. now rewrite Hg.
Qed.

Lemma dict_has_dmerge_step d1 key value k :
  dict_has k (dmerge_step d1 (key, value))
  = dict_has k d1 || String.eqb k key.
Proof.
  unfold dict_has. destruct (String.eqb_spec k key) as [-> | Hne].
  - rewrite dmerge_step_at.
    destruct (dict_get key d1) as [[ | | | | | ] | ], value; reflexivity.
  - rewrite dmerge_step_other by congruence. now rewrite orb_false_r.
Qed.

(** X26. The order of the keys after [dmerge] is the insertion order of
    Python: the keys of the first dict as they were, then the keys that
    only the second dict has, in the second dict's order. *)
Theorem dmerge_key_order (d1 d2 : pydict) :
  keys_unique d2 = true ->
  map fst (dmerge d1 d2)
  = (map fst d1 ++
     List.filter (fun k => negb (dict_has k d1)) (map fst d2))%list.
Proof.
  rewrite dmerge_fold. revert d1.
  induction d2 as [ | [key value] rest IH]; intros d1 Hu.
  - cbn. now rewrite app_nil_r.
  - cbn [keys_unique] in Hu. apply andb_prop in Hu as [Hfresh Hu].
    apply negb_true_iff in Hfresh.
    cbn [fold_left map fst List.filter]. rewrite (IH _ Hu), keys_dmerge_step.
    assert (Hf : List.filter
                   (fun k => negb (dict_has k (dmerge_step d1 (key, value))))
                   (map fst rest)
                 = List.filter (fun k => negb (dict_has k d1)) (map fst rest)).
    { apply List.filter_ext_in. intros k Hin.
      rewrite dict_has_dmerge_step.
      destruct (String.eqb_spec k key) as [-> | _];
        [ | now rewrite orb_false_r].
      exfalso. apply in_map_iff in Hin as [[k0 v0] [Hk Hin]]. cbn in Hk. subst.
      unfold dict_has in Hfresh.
      assert (Hsome : exists v, dict_get key rest = Some v).
      { clear -Hin. induction rest as [ | [k1 v1] rest IHr]; [destruct Hin | ].
        cbn [dict_get]. destruct (String.eqb_spec key k1); [eauto | ].
        destruct Hin as [Heq | Hin]; [ | auto].
        inversion Heq; congruence. }
      destruct Hsome as [v Hv]. now rewrite Hv in Hfresh. }
    rewrite Hf. destruct (dict_has key d1); cbn [negb].
    + reflexivity.
    + now rewrite <- app_assoc.
Qed.

(** ** The capability loop, key by key *)

Lemma merge_cap_at r cap newval :
  exists r1,
    merge_cap (PDict r) (cap, newval) = Ok (PDict r1) /\
    dict_get cap r1 = Some (merged_cap cap (dict_get cap r) newval).
Proof.
  unfold merge_cap, merged_cap. cbn [py_get mbind result_bind py_setitem].
  destruct (dict_get cap r) as [cur | ] eqn:Hg; cbn [default from_option id].
  2:{ eexists. split; [reflexivity | apply dict_get_set_eq]. }
  destruct (String.eqb cap "semanticTokensProvider");
    destruct (String.eqb cap "textDocumentSync" && t1sync newval);
    destruct cur, newval;
    cbn [is_none is_scalar andb negb];
    eexists; (split; [reflexivity | first [apply dict_get_set_eq | exact Hg]]).
Qed.

Lemma merge_caps_lookup (r items : pydict) :
  keys_unique items = true ->
  exists r',
    merge_caps (PDict r) items = Ok (PDict r') /\
    forall cap,
      dict_get cap r'
      = match dict_get cap items with
        | Some newval => Some (merged_cap cap (dict_get cap r) newval)
        | None => dict_get cap r
        end.
Proof.
  revert r. induction items as [ | [c newval] rest IH]; intros r Hu.
  - exists r. split; reflexivity.
  - cbn [keys_unique] in Hu. apply andb_prop in Hu as [Hfresh Hu].
    apply negb_true_iff in Hfresh.
    destruct (merge_cap_at r c newval) as (r1 & H1 & Hat).
    destruct (IH r1 Hu) as (r' & Hr' & Hall).
    exists r'. cbn [merge_caps]. rewrite H1. cbn [mbind result_bind].
    split; [exact Hr' | ]. intros cap. rewrite Hall. cbn [dict_get].
    destruct (String.eqb_spec cap c) as [-> | Hne].
    + unfold dict_has in Hfresh.
      destruct (dict_get c rest); [discriminate | exact Hat].
    + now rewrite (merge_cap_other _ _ _ _ _ (not_eq_sym Hne) H1).
Qed.

(** X27. What the capability loop computes.  For a reply that holds each
    capability once, the loop returns, and the merged capabilities hold:
    under a capability of the reply, the aggregate's entry combined with
    the reply's value by the rules of the loop; under any other key, what
    the aggregate held.  No capability of the aggregate is removed. *)
Theorem capabilities_key_by_key (r items : pydict) :
  keys_unique items = true ->
  exists r',
    merge_caps (PDict r) items = Ok (PDict r') /\
    forall cap,
      dict_get cap r'
      = match dict_get cap items with
        | Some newval => Some (merged_cap cap (dict_get cap r) newval)
        | None => dict_get cap r
        end.
Proof. exact (merge_caps_lookup r items). Qed.

(** X28. A capability the aggregate lacks is adopted: when the reply
    announces a capability that the aggregate does not have, or has as
    [null], the merged capabilities hold the reply's value for it. *)
Theorem capability_adopted_when_missing (r items : pydict) (cap : string)
  (newval : pyval) :
  keys_unique items = true ->
  dict_get cap items = Some newval ->
  default PNone (dict_get cap r) = PNone ->
  exists r',
    merge_caps (PDict r) items = Ok (PDict r') /\
    dict_get cap r' = Some newval.
Proof.
  intros Hu Hi Hr. destruct (merge_caps_lookup r items Hu) as (r' & H & Hall).
  exists r'. split; [exact H | ]. rewrite Hall, Hi. f_equal.
  unfold merged_cap. destruct (dict_get cap r) as [cur | ]; [ | reflexivity].
  cbn in Hr. now subst.
Qed.

(** X29. Between scalars the first reply stands.  When the aggregate
    already holds a scalar for a capability, [false] included, a later
    scalar for it is ignored, save for the full-sync value of
    [textDocumentSync]. *)
Theorem scalar_capability_first_wins (r items : pydict) (cap : string)
  (cur newval : pyval) :
  keys_unique items = true ->
  dict_get cap r = Some cur ->
  cur <> PNone ->
  is_scalar cur = true ->
  dict_get cap items = Some newval ->
  is_scalar newval = true ->
  cap <> "textDocumentSync" \/ t1sync newval = false ->
  exists r',
    merge_caps (PDict r) items = Ok (PDict r') /\
    dict_get cap r' = Some cur.
Proof.
  intros Hu Hr Hnn Hsc Hi Hsn Hsync.
  destruct (merge_caps_lookup r items Hu) as (r' & H & Hall).
  exists r'. split; [exact H | ]. rewrite Hall, Hi, Hr. f_equal.
  unfold merged_cap.
  replace (String.eqb cap "textDocumentSync" && t1sync newval) with false.
  2:{ destruct Hsync as [Hc | ->]; [ | now rewrite andb_false_r].
      now destruct (String.eqb_spec cap "textDocumentSync"). }
  rewrite Hsc, Hsn. destruct cur; try congruence; try discriminate; reflexivity.
Qed.

(** X30. A reply without [serverInfo] leaves the aggregate's alone: when
    the reply has no [serverInfo], or an empty one, the merge changes the
    [capabilities] entry of the aggregate and nothing else. *)
Theorem reply_without_serverInfo (self : LspLogic) (h : store)
  (a p ca cp : pydict) (source : addr) :
  default (PDict []) (dict_get "capabilities" a) = PDict ca ->
  default (PDict []) (dict_get "capabilities" p) = PDict cp ->
  truthy (default (PDict []) (dict_get "serverInfo" p)) = false ->
  exists r',
    merge_caps (PDict ca) cp = Ok (PDict r') /\
    _merge_initialize_payloads self h (PDict a) (PDict p) source
    = Ok (PDict (dict_set "capabilities" (PDict r') a)) /\
    forall k, k <> "capabilities" ->
      dict_get k (dict_set "capabilities" (PDict r') a) = dict_get k a.
Proof.
  intros Hca Hcp Hsi. destruct (merge_caps_dict cp ca) as [r' Hr'].
  exists r'. split; [exact Hr' | ]. split.
  - unfold _merge_initialize_payloads.
    cbn [py_get mbind result_bind]. rewrite Hca, Hcp.
    cbn [py_items mbind result_bind]. rewrite Hr'.
    cbn [py_setitem mbind result_bind]. now rewrite Hsi.
  - intros k Hk. apply dict_get_set_ne. congruence.
Qed.

(** ** The further properties at sample inputs *)

Lemma two_servers_caps : caps_are_dicts two_servers [0; 1].
Proof. repeat constructor; eexists; reflexivity. Defined.

Lemma route_broadcast_witness :
  servers_to_route_to (LspLogic_init 0) two_servers "shutdown" PNone [0; 1]
  = Ok (PNone, [0; 1]).
Proof.
  apply (route_broadcast (LspLogic_init 0) two_servers "shutdown" PNone [0; 1]).
  right. reflexivity.
Defined.

Lemma route_code_action_filter_witness :
  servers_to_route_to (LspLogic_init 0) two_servers "textDocument/codeAction"
    (PDict []) [0; 1]
  = Ok (PDict [], [1]).
Proof.
  apply (route_code_action_filter (LspLogic_init 0) two_servers (PDict [])
           [0; 1] two_servers_caps).
Defined.

Lemma route_single_target_first_witness :
  servers_to_route_to (LspLogic_init 0) two_servers "textDocument/rename"
    (PDict []) [1; 0]
  = Ok (PDict [], [0]).
Proof.
  apply (route_single_target_first (LspLogic_init 0) two_servers
           "textDocument/rename" "renameProvider" (PDict []) [1; 0]).
  - reflexivity.
  - repeat constructor; eexists; reflexivity.
Defined.

Lemma route_returns_known_servers_witness :
  In 5 [0; 1] \/ 5 = primary_server cookie_engine \/
  exists id c, data_cookies cookie_engine !! id = Some c /\ server c = 5.
Proof.
  apply (route_returns_known_servers cookie_engine two_servers
           "codeAction/resolve" (PDict [("data", PStr "rassumfrassum-1")])
           (PDict [("data", PInt 7)]) [0; 1] [5] 5).
  - reflexivity.
  - left. reflexivity.
Defined.

Lemma route_rewrites_only_on_recovery_witness :
  PDict [("position", PInt 3)] = PDict [("position", PInt 3)] \/
  exists p c, PDict [("position", PInt 3)] = PDict p /\
              recovers (LspLogic_init 0) "textDocument/hover" p = Some c /\
              PDict [("position", PInt 3)]
              = PDict (dict_set "data" (data c) p) /\
              [0] = [server c].
Proof.
  apply (route_rewrites_only_on_recovery (LspLogic_init 0) two_servers
           "textDocument/hover" (PDict [("position", PInt 3)])
           (PDict [("position", PInt 3)]) [0; 1] [0]).
  reflexivity.
Defined.

Lemma route_no_candidates_witness :
  servers_to_route_to (LspLogic_init 0) two_servers "textDocument/hover"
    (PDict [("position", PInt 3)]) []
  = Ok (PDict [("position", PInt 3)], []).
Proof.
  apply (route_no_candidates (LspLogic_init 0) two_servers
           "textDocument/hover" [("position", PInt 3)]).
  reflexivity.
Defined.

Lemma route_returns_witness :
  exists params' l,
    servers_to_route_to cookie_engine two_servers "textDocument/formatting"
      PNone [0; 1]
    = Ok (params', l).
Proof.
  apply (route_returns cookie_engine two_servers "textDocument/formatting"
           PNone [0; 1]).
  - left. reflexivity.
  - exact two_servers_caps.
Defined.

Lemma route_resolve_needs_object_witness :
  servers_to_route_to (LspLogic_init 0) two_servers "completionItem/resolve"
    (PList [PStr "rassumfrassum-1"]) [0; 1]
  = Raise AttributeError.
Proof.
  apply (route_resolve_needs_object (LspLogic_init 0) two_servers
           "completionItem/resolve" (PList [PStr "rassumfrassum-1"]) [0; 1]).
  - reflexivity.
  - reflexivity.
  - intros [d Hd]. discriminate.
Defined.

Lemma version_recorded_witness :
  exists self',
    on_client_notification tracking_engine "textDocument/didChange"
      (PDict change_to_5) = Ok self' /\
    document_versions self' !! HStr "file:///a.py" = Some (PInt 5) /\
    (forall k', k' <> HStr "file:///a.py" ->
       document_versions self' !! k' = document_versions tracking_engine !! k') /\
    data_cookies self' = data_cookies tracking_engine /\
    _data_cookie_counter self' = _data_cookie_counter tracking_engine /\
    primary_server self' = primary_server tracking_engine.
Proof.
  apply (version_recorded tracking_engine "textDocument/didChange" change_to_5
           [("uri", PStr "file:///a.py"); ("version", PInt 5)]
           (PStr "file:///a.py") (PInt 5) (HStr "file:///a.py"));
    solve [reflexivity | discriminate | right; reflexivity].
Defined.

Lemma version_forgotten_witness :
  exists self',
    on_client_notification tracking_engine "textDocument/didClose"
      (PDict close_a) = Ok self' /\
    document_versions self' !! HStr "file:///a.py" = None /\
    (forall k', k' <> HStr "file:///a.py" ->
       document_versions self' !! k' = document_versions tracking_engine !! k') /\
    (document_versions tracking_engine !! HStr "file:///a.py" = None ->
     self' = tracking_engine).
Proof.
  apply (version_forgotten tracking_engine close_a
           [("uri", PStr "file:///a.py")] (PStr "file:///a.py")
           (HStr "file:///a.py"));
    solve [reflexivity | discriminate].
Defined.

Lemma version_fields_missing_witness :
  on_client_notification tracking_engine "textDocument/didOpen" (PDict close_a)
  = Ok tracking_engine.
Proof.
  apply (version_fields_missing tracking_engine "textDocument/didOpen" close_a
           [("uri", PStr "file:///a.py")]).
  - left. reflexivity.
  - reflexivity.
  - right. reflexivity.
Defined.

Lemma change_then_diagnostics_witness :
  exists self',
    on_client_notification tracking_engine "textDocument/didChange"
      (PDict change_to_5) = Ok self' /\
    get_notif_aggregation_key self' (Some "textDocument/publishDiagnostics")
      (PDict diagnostics_v4)
    = Ok (Some [PStr "drop"]).
Proof.
  apply (change_then_diagnostics tracking_engine change_to_5
           [("uri", PStr "file:///a.py"); ("version", PInt 5)]
           diagnostics_v4 "file:///a.py" 5 4); reflexivity.
Defined.

Lemma close_then_diagnostics_witness :
  exists self',
    on_client_notification tracking_engine "textDocument/didClose"
      (PDict close_a) = Ok self' /\
    get_notif_aggregation_key self' (Some "textDocument/publishDiagnostics")
      (PDict diagnostics_v4)
    = Ok (Some [PStr "notification"; PStr "textDocument/publishDiagnostics";
                PStr "file:///a.py"; PInt 4]).
Proof.
  apply (close_then_diagnostics tracking_engine close_a
           [("uri", PStr "file:///a.py")] diagnostics_v4 "file:///a.py");
    reflexivity.
Defined.

Lemma drop_only_when_stale_witness :
  Some "textDocument/publishDiagnostics"
  = Some "textDocument/publishDiagnostics" /\
  exists d k version tracked_version,
    PDict [("uri", PStr "file:///a.py"); ("version", PInt 2)] = PDict d /\
    py_key (default (PStr "") (dict_get "uri" d)) = Ok k /\
    document_versions tracking_engine !! k = Some tracked_version /\
    dict_get "version" d = Some version /\
    py_lt version tracked_version = Ok true.
Proof.
  apply (drop_only_when_stale tracking_engine
           (Some "textDocument/publishDiagnostics")
           (PDict [("uri", PStr "file:///a.py"); ("version", PInt 2)])).
  reflexivity.
Defined.

Lemma stashed_engine_reachable : reachable stashed_engine.
Proof.
  exists 0. apply rtc_once.
  apply (step_stash (LspLogic_init 0) (PDict action_item) 1 stashed_engine
           (PDict (dict_set "data" (PStr (cookie_id 1)) action_item))).
  reflexivity.
Defined.

Lemma engine_after_failed_stash_reachable :
  reachable_any engine_after_failed_stash.
Proof.
  exists 0.
  apply (rtc_l step_any _ (bump_counter (LspLogic_init 0))).
  - apply (any_stash_raises (LspLogic_init 0) (PStr "metadata") 1 TypeError).
    reflexivity.
  - apply rtc_once. apply any_returns.
    apply (step_stash (bump_counter (LspLogic_init 0)) (PDict action_item) 1
             engine_after_failed_stash
             (PDict (dict_set "data" (PStr (cookie_id 2)) action_item))).
    reflexivity.
Defined.

Lemma next_token_is_fresh_witness :
  cookie_keys_issued engine_after_failed_stash /\
  data_cookies engine_after_failed_stash !! cookie_id 3 = None.
Proof.
  apply (next_token_is_fresh engine_after_failed_stash
           engine_after_failed_stash_reachable).
Defined.

Lemma cookies_are_kept_witness :
  data_cookies
    (set_document_versions stashed_engine
       (<[HStr "file:///a.py" := PInt 5]> ∅)) !! cookie_id 1
  = Some (mkDataCookie (PDict [("id", PInt 7)]) 1).
Proof.
  apply (cookies_are_kept stashed_engine
           (set_document_versions stashed_engine
              (<[HStr "file:///a.py" := PInt 5]> ∅))
           (cookie_id 1) (mkDataCookie (PDict [("id", PInt 7)]) 1)
           stashed_engine_reachable).
  - apply rtc_once.
    apply (step_client_notification stashed_engine "textDocument/didChange"
             (PDict change_to_5)).
    reflexivity.
  - reflexivity.
Defined.

Lemma code_action_reply_is_stashed_witness :
  exists self' actions',
    on_server_response (LspLogic_init 0) two_servers
      (Some "textDocument/codeAction") PNone
      (PList [PDict action_item; PDict plain_action]) false 1
    = Ok (self', two_servers, PList actions') /\
    Forall2 (stashed_as self' 1) [PDict action_item; PDict plain_action]
      actions' /\
    document_versions self' = document_versions (LspLogic_init 0) /\
    primary_server self' = primary_server (LspLogic_init 0).
Proof.
  apply (code_action_reply_is_stashed (LspLogic_init 0) two_servers PNone
           [PDict action_item; PDict plain_action] 1).
  - discriminate.
  - repeat constructor; eexists; reflexivity.
Defined.

Lemma initialize_reply_updates_server_witness :
  exists h',
    on_server_response (LspLogic_init 0) two_servers (Some "initialize") PNone
      (PDict second_reply) false 0
    = Ok (LspLogic_init 0, h', PDict second_reply) /\
    name (h' 0) = PStr "ruff" /\
    caps (h' 0)
    = PDict [("textDocumentSync",
              PDict [("openClose", PBool true); ("change", PInt 2)])] /\
    cookie (h' 0) = PNone /\
    forall a, a <> 0 -> h' a = two_servers a.
Proof.
  apply (initialize_reply_updates_server (LspLogic_init 0) two_servers PNone
           second_reply
           [("name", PStr "ruff"); ("version", PStr "0.4")]
           [("textDocumentSync",
             PDict [("openClose", PBool true); ("change", PInt 2)])] 0);
    solve [reflexivity | discriminate].
Defined.

Lemma diagnostics_are_attributed_witness :
  on_server_notification two_servers "textDocument/publishDiagnostics"
    (PDict published) 1
  = Ok (PDict
      [("uri", PStr "file:///a.py");
       ("diagnostics",
        PList [PDict [("message", PStr "unused import");
                      ("source", PStr "ruff")];
               PDict [("message", PStr "line too long");
                      ("source", PStr "flake8")]])]).
Proof.
  apply (diagnostics_are_attributed two_servers published two_diagnostics 1).
  reflexivity.
Defined.

Lemma attribution_is_settled_witness :
  on_server_notification two_servers "textDocument/publishDiagnostics"
    (PDict
      [("uri", PStr "file:///a.py");
       ("diagnostics",
        PList [PDict [("message", PStr "unused import");
                      ("source", PStr "ruff")];
               PDict [("message", PStr "line too long");
                      ("source", PStr "flake8")]])]) 0
  = Ok (PDict
      [("uri", PStr "file:///a.py");
       ("diagnostics",
        PList [PDict [("message", PStr "unused import");
                      ("source", PStr "ruff")];
               PDict [("message", PStr "line too long");
                      ("source", PStr "flake8")]])]).
Proof.
  apply (attribution_is_settled two_servers two_servers
           "textDocument/publishDiagnostics" (PDict published) _ 1 0).
  reflexivity.
Defined.

Lemma code_actions_concatenate_witness :
  aggregate_payloads (LspLogic_init 0) two_servers "textDocument/codeAction"
    PNone (PList [PDict plain_action]) 1 false
  = Ok (mkAggregated (PList [PDict plain_action]) PNone
          (PList [PDict plain_action])).
Proof.
  apply (code_actions_concatenate (LspLogic_init 0) two_servers PNone
           (PList [PDict plain_action]) 1).
  - left. reflexivity.
  - right. eexists. reflexivity.
Defined.

Lemma diagnostics_are_appended_witness :
  aggregate_payloads (LspLogic_init 0) two_servers
    "textDocument/publishDiagnostics"
    (PDict [("uri", PStr "file:///a.py")]) (PDict published) 1 false
  = Ok (mkAggregated
          (PDict [("uri", PStr "file:///a.py");
                  ("diagnostics",
                   PList (map (fun d => PDict (attribute (PStr "ruff") d))
                            two_diagnostics))])
          (PDict [("uri", PStr "file:///a.py");
                  ("diagnostics",
                   PList (map (fun d => PDict (attribute (PStr "ruff") d))
                            two_diagnostics))])
          (PDict [("uri", PStr "file:///a.py");
                  ("diagnostics",
                   PList (map (fun d => PDict (attribute (PStr "ruff") d))
                            two_diagnostics))])).
Proof.
  apply (diagnostics_are_appended (LspLogic_init 0) two_servers
           [("uri", PStr "file:///a.py")] published [] two_diagnostics 1);
    reflexivity.
Defined.

Lemma dmerge_key_by_key_witness :
  dict_get "triggerCharacters" (dmerge left_options right_options)
  = Some (PList [PStr "."; PStr ":"]).
Proof.
  apply (dmerge_key_by_key left_options right_options "triggerCharacters").
  reflexivity.
Defined.

Lemma dmerge_conflicts_witness :
  (is_scalar (PBool true) = true ->
   is_scalar (PDict [("tokenTypes", PList [])]) = true ->
   dict_get "legend" (dmerge left_options right_options)
   = Some (PBool true)) /\
  (is_scalar (PBool true) = true ->
   is_scalar (PDict [("tokenTypes", PList [])]) = false ->
   dict_get "legend" (dmerge left_options right_options)
   = Some (PDict [("tokenTypes", PList [])])) /\
  (is_scalar (PBool true) = false ->
   is_scalar (PDict [("tokenTypes", PList [])]) = true ->
   dict_get "legend" (dmerge left_options right_options)
   = Some (PBool true)).
Proof.
  apply (dmerge_conflicts left_options right_options "legend" (PBool true)
           (PDict [("tokenTypes", PList [])])); reflexivity.
Defined.

Lemma dmerge_well_formed_witness :
  wf_pyval (PDict (dmerge left_options right_options)) = true.
Proof.
  apply (dmerge_well_formed left_options right_options); reflexivity.
Defined.

Lemma dmerge_key_order_witness :
  map fst (dmerge left_options right_options)
  = ["triggerCharacters"; "resolveProvider"; "legend"; "workDoneProgress"].
Proof.
  apply (dmerge_key_order left_options right_options). reflexivity.
Defined.

Lemma capabilities_key_by_key_witness :
  exists r',
    merge_caps (PDict aggregate_caps) reply_caps = Ok (PDict r') /\
    forall cap,
      dict_get cap r'
      = match dict_get cap reply_caps with
        | Some newval =>
            Some (merged_cap cap (dict_get cap aggregate_caps) newval)
        | None => dict_get cap aggregate_caps
        end.
Proof.
  apply (capabilities_key_by_key aggregate_caps reply_caps). reflexivity.
Defined.

Lemma capability_adopted_when_missing_witness :
  exists r',
    merge_caps (PDict aggregate_caps) reply_caps = Ok (PDict r') /\
    dict_get "renameProvider" r' = Some (PBool true).
Proof.
  apply (capability_adopted_when_missing aggregate_caps reply_caps
           "renameProvider" (PBool true)); reflexivity.
Defined.

Lemma scalar_capability_first_wins_witness :
  exists r',
    merge_caps (PDict aggregate_caps) reply_caps = Ok (PDict r') /\
    dict_get "hoverProvider" r' = Some (PBool false).
Proof.
  apply (scalar_capability_first_wins aggregate_caps reply_caps
           "hoverProvider" (PBool false) (PBool true));
    solve [reflexivity | discriminate | left; discriminate].
Defined.

Lemma reply_without_serverInfo_witness :
  exists r',
    merge_caps (PDict [("textDocumentSync", PInt 1)]) reply_caps
    = Ok (PDict r') /\
    _merge_initialize_payloads (LspLogic_init 0) two_servers
      (PDict first_reply) (PDict [("capabilities", PDict reply_caps)]) 1
    = Ok (PDict (dict_set "capabilities" (PDict r') first_reply)) /\
    forall k, k <> "capabilities" ->
      dict_get k (dict_set "capabilities" (PDict r') first_reply)
      = dict_get k first_reply.
Proof.
  apply (reply_without_serverInfo (LspLogic_init 0) two_servers first_reply
           [("capabilities", PDict reply_caps)]
           [("textDocumentSync", PInt 1)] reply_caps 1); reflexivity.
Defined.
